(** * Meeting-history controller: add, index, view, deleteData, deleteMany

    A shallow embedding of the five request handlers of
    [server/controllers/meeting/meeting.js] over an explicit model of the
    document store they talk to, and the properties of their
    specification, numbered C1 to C10.

    The handlers are [async] functions that thread a mutable store and may
    throw: they are modelled in a small state-and-exception monad.  The
    aggregation pipelines the handlers hand to the store are data in the
    source (arrays of stage objects); they are data here too, and an
    interpreter gives them the store's documented meaning. *)

From Stdlib Require Import ZArith NArith String Ascii List Bool.
From stdpp Require Import base option list gmap strings pretty.

Open Scope string_scope.
#[local] Set Warnings "-register-all".

(** ** Values and documents *)

(** An identity is a 12-byte ObjectId, kept as the number it denotes.
    Requests carry identities after the data layer's cast; a request whose
    identity does not cast makes the store call throw, which is one of the
    faults of [world] below. *)
Abbreviation oid := N.

(** JSON/BSON values.  A date is kept as its ISO-8601 text: the handlers
    only store, compare and print dates.  An object is a list of fields in
    insertion order, as in JS and in BSON. *)
Inductive value : Type :=
| VNull
| VBool (b : bool)
| VNum (n : Z)
| VStr (s : string)
| VOid (i : oid)
| VDate (iso : string)
| VArr (elems : list value)
| VObj (fields : list (string * value)).

Definition doc := list (string * value).

(** Equality of values as the store compares them (objects field by field,
    in order). *)
Fixpoint value_eqb (a b : value) {struct a} : bool :=
  match a, b with
  | VNull, VNull => true
  | VBool x, VBool y => Bool.eqb x y
  | VNum x, VNum y => Z.eqb x y
  | VStr x, VStr y => String.eqb x y
  | VOid x, VOid y => N.eqb x y
  | VDate x, VDate y => String.eqb x y
  | VArr xs, VArr ys =>
      (fix go (xs ys : list value) : bool :=
         match xs, ys with
         | [], [] => true
         | x :: xs', y :: ys' => value_eqb x y && go xs' ys'
         | _, _ => false
         end) xs ys
  | VObj xs, VObj ys =>
      (fix go (xs ys : list (string * value)) : bool :=
         match xs, ys with
         | [], [] => true
         | (k, x) :: xs', (l, y) :: ys' =>
             String.eqb k l && value_eqb x y && go xs' ys'
         | _, _ => false
         end) xs ys
  | _, _ => false
  end.

(** [d.k]: [None] is JS [undefined], a missing field. *)
Fixpoint doc_get (k : string) (d : doc) : option value :=
  match d with
  | [] => None
  | (k', v) :: d' => if String.eqb k k' then Some v else doc_get k d'
  end.

(** [d.k = v]: overwrite in place, or append a new field. *)
Fixpoint doc_set (k : string) (v : value) (d : doc) : doc :=
  match d with
  | [] => [(k, v)]
  | (k', v') :: d' =>
      if String.eqb k k' then (k, v) :: d' else (k', v') :: doc_set k v d'
  end.

(** [delete d.k]. *)
Fixpoint doc_unset (k : string) (d : doc) : doc :=
  match d with
  | [] => []
  | (k', v') :: d' =>
      if String.eqb k k' then doc_unset k d' else (k', v') :: doc_unset k d'
  end.

(** The soft-delete flag of a document: [deleted == true]. *)
Definition is_deleted (d : doc) : bool :=
  match doc_get "deleted" d with
  | Some (VBool true) => true
  | _ => false
  end.

(** A stored document carries its identity as the [_id] field. *)
Definition with_id (i : oid) (d : doc) : doc := ("_id", VOid i) :: d.

(** The 24 hexadecimal digits of an ObjectId. *)
Definition hex_digit (n : N) : ascii :=
  match n with
  | 0%N => "0" | 1%N => "1" | 2%N => "2" | 3%N => "3" | 4%N => "4"
  | 5%N => "5" | 6%N => "6" | 7%N => "7" | 8%N => "8" | 9%N => "9"
  | 10%N => "a" | 11%N => "b" | 12%N => "c" | 13%N => "d" | 14%N => "e"
  | _ => "f"
  end%char.

Fixpoint hex_digits (k : nat) (n : N) (acc : string) : string :=
  match k with
  | O => acc
  | S k' => hex_digits k' (n / 16)%N (String (hex_digit (n mod 16)%N) acc)
  end.

Definition oid_hex (i : oid) : string := hex_digits 24 i "".

(** ** Aggregation pipelines: syntax *)

(** Aggregation expressions, as far as the two pipelines use them:
    ["$a.b"], ["$$x.a"], a literal, [$concat], [$toString], [$map]. *)
Inductive expr : Type :=
| Field (path : list string)
| Var (name : string) (path : list string)
| Lit (v : value)
| Concat (args : list expr)
| ToString (arg : expr)
| MapE (input : expr) (as_ : string) (in_ : expr).

Inductive stage : Type :=
| Match (query : doc)
| Lookup (from localField foreignField as_ : string)
| Unwind (path : string) (preserveNullAndEmptyArrays : bool)
| AddFields (fields : list (string * expr))
| Project (fields : list string).

(** ** The store and the handler monad *)

(** The outcome of a computation that may throw; an error is kept as its
    [message]. *)
Inductive result (A : Type) : Type :=
| Ok (a : A)
| Throw (message : string).
Arguments Ok {A} a.
Arguments Throw {A} message.

(** A call to the store, with its arguments. *)
Inductive call : Type :=
| CallSave (d : doc)
| CallFindOne (filter : doc)
| CallFindById (i : oid)
| CallAggregate (pipeline : list stage)
| CallFindByIdAndUpdate (i : oid) (update : doc)
| CallUpdateMany (filter update : doc).

(** The three collections the handlers reach, keyed by [_id] (the store
    keeps identities unique), and what the environment decides: whether the
    next store calls fail ([faults], consumed one per call; [Some m] is a
    failure with message [m]: connectivity, validation by the data layer, an
    identity that does not cast), the next generated identity and the
    clock.  [console] is the diagnostic channel and [calls] the history of
    the calls made to the store. *)
Record world : Type := World {
  Meetings : gmap oid doc;
  Users : gmap oid doc;
  Contacts : gmap oid doc;
  faults : list (option string);
  next_oid : oid;
  now : string;
  console : list string;
  calls : list call
}.

Definition set_Meetings (m : gmap oid doc) (w : world) : world :=
  World m (Users w) (Contacts w) (faults w) (next_oid w) (now w)
    (console w) (calls w).
Definition set_faults (fs : list (option string)) (w : world) : world :=
  World (Meetings w) (Users w) (Contacts w) fs (next_oid w) (now w)
    (console w) (calls w).
Definition set_next_oid (i : oid) (w : world) : world :=
  World (Meetings w) (Users w) (Contacts w) (faults w) i (now w)
    (console w) (calls w).
Definition set_console (c : list string) (w : world) : world :=
  World (Meetings w) (Users w) (Contacts w) (faults w) (next_oid w) (now w)
    c (calls w).
Definition set_Users (us : gmap oid doc) (w : world) : world :=
  World (Meetings w) us (Contacts w) (faults w) (next_oid w) (now w)
    (console w) (calls w).
Definition set_calls (cs : list call) (w : world) : world :=
  World (Meetings w) (Users w) (Contacts w) (faults w) (next_oid w) (now w)
    (console w) cs.

(** An [async] handler body: it reads and writes the world, and returns or
    throws. *)
Definition M (A : Type) : Type := world -> result A * world.

Definition ret {A} (a : A) : M A := fun w => (Ok a, w).

Definition bind {A B} (m : M A) (k : A -> M B) : M B := fun w =>
  match m w with
  | (Ok a, w') => k a w'
  | (Throw e, w') => (Throw e, w')
  end.

(** [try { m } catch (err) { h err }]. *)
Definition try_catch {A} (m : M A) (h : string -> M A) : M A := fun w =>
  match m w with
  | (Ok a, w') => (Ok a, w')
  | (Throw e, w') => h e w'
  end.

Notation "x <- m ;; k" := (bind m (fun x => k))
  (at level 100, m at next level, right associativity).

(** [console.error(prefix, err)]. *)
Definition console_error (prefix err : string) : M unit := fun w =>
  (Ok tt, set_console (console w ++ [prefix ++ " " ++ err]) w).

(** One call to the store driver.  It is recorded, consumes the next entry
    of [faults], and throws if that entry is a failure. *)
Definition issue (c : call) (w : world) : world :=
  set_faults (tail (faults w)) (set_calls (calls w ++ [c]) w).

Definition store_call {A} (c : call) (op : M A) : M A := fun w =>
  match head (faults w) with
  | Some (Some e) => (Throw e, issue c w)
  | _ => op (issue c w)
  end.

(** The next [n] store calls reach the store. *)
Fixpoint calls_ok (n : nat) (fs : list (option string)) : bool :=
  match n, fs with
  | O, _ => true
  | S _, [] => true
  | S n', None :: fs' => calls_ok n' fs'
  | S _, Some _ :: _ => false
  end.

(** The documents of a collection, each with its [_id], in the order the
    store enumerates them. *)
Definition docs_of (m : gmap oid doc) : list doc :=
  (fun kd => with_id kd.1 kd.2) <$> map_to_list m.

(** ** Filters *)

Definition type_name (v : value) : string :=
  match v with
  | VNull => "null" | VBool _ => "bool" | VNum _ => "int"
  | VStr _ => "string" | VOid _ => "objectId" | VDate _ => "date"
  | VArr _ => "array" | VObj _ => "object"
  end.

(** What a filter object says about one field: equality with a value, or
    [{ $in: [...] }].  These are the two forms the handlers build; any other
    operator object ([$ne], [$gt], a top-level [$or], ...), which a caller
    of [index] can put in the query string, is compared as a plain value,
    so the matcher follows the store on plain-value queries only.  A [$in]
    whose operand is not an array is the server's error; Mongoose's cast of
    a filter may wrap such an operand into an array first. *)
Inductive cond : Type :=
| CEq (v : value)
| CIn (vs : list value).

Definition cond_of (v : value) : result cond :=
  match v with
  | VObj [(op, arg)] =>
      if String.eqb op "$in" then
        match arg with
        | VArr vs => Ok (CIn vs)
        | _ => Throw "$in needs an array"
        end
      else Ok (CEq v)
  | _ => Ok (CEq v)
  end.

Fixpoint compile_filter (q : doc) : result (list (string * cond)) :=
  match q with
  | [] => Ok []
  | (k, v) :: q' =>
      match cond_of v, compile_filter q' with
      | Ok c, Ok cs => Ok ((k, c) :: cs)
      | Throw e, _ => Throw e
      | _, Throw e => Throw e
      end
  end.

(** [{ field: v }]: the field equals [v], or is an array with an element
    equal to [v]; [null] also matches a missing field. *)
Definition eq_matches (f : option value) (v : value) : bool :=
  match f with
  | None => value_eqb v VNull
  | Some (VArr xs) =>
      value_eqb (VArr xs) v || existsb (fun x => value_eqb x v) xs
  | Some x => value_eqb x v
  end.

Definition cond_matches (f : option value) (c : cond) : bool :=
  match c with
  | CEq v => eq_matches f v
  | CIn vs => existsb (eq_matches f) vs
  end.

(** A document matches a filter when every field condition holds. *)
Definition matches (fl : list (string * cond)) (d : doc) : bool :=
  forallb (fun kc => cond_matches (doc_get kc.1 d) kc.2) fl.

(** ** Aggregation pipelines: meaning *)

(** A field path read from a value.  Through an array it collects the
    field from the elements that are objects. *)
Fixpoint path_get (p : list string) (v : value) : option value :=
  match p with
  | [] => Some v
  | k :: p' =>
      let step (x : value) :=
        match x with
        | VObj o => match doc_get k o with
                    | Some y => path_get p' y
                    | None => None
                    end
        | _ => None
        end in
      match v with
      | VArr xs => Some (VArr (omap step xs))
      | _ => step v
      end
  end.

(** [$toString]: null and missing give null; arrays and objects do not
    convert. *)
Definition to_string (o : option value) : result (option value) :=
  match o with
  | None | Some VNull => Ok (Some VNull)
  | Some (VStr s) => Ok (Some (VStr s))
  | Some (VBool b) => Ok (Some (VStr (if b then "true" else "false")))
  | Some (VNum n) => Ok (Some (VStr (pretty n)))
  | Some (VOid i) => Ok (Some (VStr (oid_hex i)))
  | Some (VDate s) => Ok (Some (VStr s))
  | Some v =>
      Throw ("Unsupported conversion from " ++ type_name v ++ " to string")
  end.

(** The value of an expression on a document; [Ok None] is a missing
    value.
    - [$concat] reads its arguments in order: a null or missing argument
      makes the result null, an argument that is not a string is an error.
    - [$map] gives null on a null or missing input and is an error on an
      input that is not an array. *)
Fixpoint eval (vars : doc) (d : doc) (e : expr) {struct e}
  : result (option value) :=
  match e with
  | Field p => Ok (path_get p (VObj d))
  | Var x p =>
      Ok (match doc_get x vars with Some v => path_get p v | None => None end)
  | Lit v => Ok (Some v)
  | ToString e1 =>
      match eval vars d e1 with
      | Ok o => to_string o
      | Throw m => Throw m
      end
  | Concat es =>
      (fix go (es : list expr) (acc : string) : result (option value) :=
         match es with
         | [] => Ok (Some (VStr acc))
         | e1 :: es' =>
             match eval vars d e1 with
             | Throw m => Throw m
             | Ok None | Ok (Some VNull) => Ok (Some VNull)
             | Ok (Some (VStr s)) => go es' (acc ++ s)
             | Ok (Some v) =>
                 Throw ("$concat only supports strings, not " ++ type_name v)
             end
         end) es ""
  | MapE input x body =>
      match eval vars d input with
      | Throw m => Throw m
      | Ok None | Ok (Some VNull) => Ok (Some VNull)
      | Ok (Some (VArr xs)) =>
          match
            (fix go (xs : list value) : result (list value) :=
               match xs with
               | [] => Ok []
               | y :: ys =>
                   match eval (doc_set x y vars) d body, go ys with
                   | Ok o, Ok rs => Ok (default VNull o :: rs)
                   | Throw m, _ => Throw m
                   | _, Throw m => Throw m
                   end
               end) xs
          with
          | Ok rs => Ok (Some (VArr rs))
          | Throw m => Throw m
          end
      | Ok (Some v) =>
          Throw ("input to $map must be an array not " ++ type_name v)
      end
  end.

(** [$lookup]: the documents of [from] whose [foreignField] equals the
    local value, or one of its elements when the local value is an array;
    a missing local field is matched as null. *)
Definition lookup_matches (local : option value) (foreignField : string)
    (f : doc) : bool :=
  let fv := doc_get foreignField f in
  match local with
  | Some (VArr xs) => existsb (eq_matches fv) xs
  | Some x => eq_matches fv x
  | None => eq_matches fv VNull
  end.

(** Modelled from the spec: the User and Contact models ([model/schema/user]
    and the contact schema are not among the sources).  Their collections
    are the ones the pipelines join against, [User] and [Contacts]; a user
    has [firstName], [lastName] and [role], a contact [firstName] and
    [lastName].  A join against any other name finds nothing. *)
Definition collection (w : world) (from : string) : list doc :=
  if String.eqb from "User" then docs_of (Users w)
  else if String.eqb from "Contacts" then docs_of (Contacts w)
  else [].

(** [$unwind]: one document per element of the array at [path].  With
    [preserveNullAndEmptyArrays] a document whose field is null or missing
    is kept as it is and one whose field is the empty array is kept without
    the field; a field that is not an array is a one-element array. *)
Definition unwind (path : string) (preserve : bool) (d : doc) : list doc :=
  match doc_get path d with
  | Some (VArr []) => if preserve then [doc_unset path d] else []
  | Some (VArr xs) => (fun x => doc_set path x d) <$> xs
  | Some VNull | None => if preserve then [d] else []
  | Some _ => [d]
  end.

(** [$addFields]: every expression is evaluated on the incoming document;
    a missing value adds nothing. *)
Fixpoint add_fields (fs : list (string * expr)) (d0 d : doc) : result doc :=
  match fs with
  | [] => Ok d
  | (k, e) :: fs' =>
      match eval [] d0 e with
      | Throw m => Throw m
      | Ok None => add_fields fs' d0 d
      | Ok (Some v) => add_fields fs' d0 (doc_set k v d)
      end
  end.

(** [$project] with inclusions only: the listed fields that are present. *)
Definition project (fs : list string) (d : doc) : doc :=
  List.filter (fun kv => existsb (String.eqb kv.1) fs) d.

Fixpoint map_result {A B} (f : A -> result B) (l : list A) : result (list B) :=
  match l with
  | [] => Ok []
  | x :: l' =>
      match f x, map_result f l' with
      | Ok y, Ok ys => Ok (y :: ys)
      | Throw m, _ => Throw m
      | _, Throw m => Throw m
      end
  end.

Definition run_stage (coll : string -> list doc) (s : stage) (ds : list doc)
  : result (list doc) :=
  match s with
  | Match q =>
      match compile_filter q with
      | Ok fl => Ok (List.filter (matches fl) ds)
      | Throw m => Throw m
      end
  | Lookup from localField foreignField as_ =>
      Ok ((fun d =>
             doc_set as_
               (VArr (VObj <$> List.filter
                        (lookup_matches (doc_get localField d) foreignField)
                        (coll from)))
               d) <$> ds)
  | Unwind path preserve => Ok (ds ≫= unwind path preserve)
  | AddFields fs => map_result (fun d => add_fields fs d d) ds
  | Project fs => Ok (project fs <$> ds)
  end.

Fixpoint run_pipeline (coll : string -> list doc) (p : list stage)
    (ds : list doc) : result (list doc) :=
  match p with
  | [] => Ok ds
  | s :: p' =>
      match run_stage coll s ds with
      | Ok ds' => run_pipeline coll p' ds'
      | Throw m => Throw m
      end
  end.
Arguments run_pipeline : simpl never.

(** A stage that gives the same rows, up to the field [k], with and
    without [k] in its input. *)
Definition stage_blind (coll : string -> list doc) (k : string) (s : stage)
  : Prop :=
  forall ds, run_stage coll s (doc_unset k <$> ds) =
             match run_stage coll s ds with
             | Ok rs => Ok (doc_unset k <$> rs)
             | Throw m => Throw m
             end.

(** ** The models the controller requires *)

(** [$set]: assign the given fields. *)
Definition apply_set (upd : doc) (d : doc) : doc :=
  fold_left (fun acc kv => doc_set kv.1 kv.2 acc) upd d.

(** Modelled from the spec: the MeetingHistory schema ([model/schema/meeting]
    is not among the sources).  [new MeetingHistory(body)] keeps the fields
    of the body as they are, assigns a new identity, and fills the defaults:
    [deleted] is false and [timestamp] is the creation time.  The creator
    reference and the attendee references are stored under the names the
    pipelines read them by, [createBy] and [attendes].  Which bodies the
    schema rejects is not known; a rejection is a fault of the [save]
    call. *)
Definition MeetingHistory_new (body : value) : M doc := fun w =>
  match body with
  | VObj b =>
      let b := doc_unset "_id" b in
      let b := match doc_get "timestamp" b with
               | Some _ => b
               | None => doc_set "timestamp" (VDate (now w)) b
               end in
      let b := match doc_get "deleted" b with
               | Some _ => b
               | None => doc_set "deleted" (VBool false) b
               end in
      (Ok (with_id (next_oid w) b), set_next_oid (N.succ (next_oid w)) w)
  | _ => (Throw "Parameter obj to Document() must be an object", w)
  end.

(** [doc.save()]: insert under the document's identity; an identity already
    in use is a duplicate-key error. *)
Definition MeetingHistory_save (d : doc) : M unit :=
  store_call (CallSave d) (fun w =>
    match doc_get "_id" d with
    | Some (VOid i) =>
        match Meetings w !! i with
        | Some _ => (Throw "E11000 duplicate key error", w)
        | None =>
            (Ok tt, set_Meetings (<[i := doc_unset "_id" d]> (Meetings w)) w)
        end
    | _ => (Throw "document must have an _id before saving", w)
    end).

(** [Model.findOne(filter)]: the first document that matches, or null. *)
Definition MeetingHistory_findOne (q : doc) : M (option doc) :=
  store_call (CallFindOne q) (fun w =>
    match compile_filter q with
    | Ok fl => (Ok (List.find (matches fl) (docs_of (Meetings w))), w)
    | Throw m => (Throw m, w)
    end).

(** [User.findById(id)]. *)
Definition User_findById (i : oid) : M (option doc) :=
  store_call (CallFindById i) (fun w => (Ok (with_id i <$> Users w !! i), w)).

(** [Model.aggregate(pipeline)]. *)
Definition MeetingHistory_aggregate (p : list stage) : M (list doc) :=
  store_call (CallAggregate p)
    (fun w => (run_pipeline (collection w) p (docs_of (Meetings w)), w)).

(** [Model.findByIdAndUpdate(id, update)]: applies the update to the
    document with that identity and resolves to the document as it was
    before the update, or to null when there is none. *)
Definition MeetingHistory_findByIdAndUpdate (i : oid) (upd : doc)
  : M (option doc) :=
  store_call (CallFindByIdAndUpdate i upd) (fun w =>
    (Ok (with_id i <$> Meetings w !! i),
     set_Meetings (alter (apply_set upd) i (Meetings w)) w)).

(** The driver's summary of a bulk update. *)
Definition update_summary (matched modified : nat) : value :=
  VObj [("acknowledged", VBool true);
        ("modifiedCount", VNum (Z.of_nat modified));
        ("upsertedId", VNull);
        ("upsertedCount", VNum 0);
        ("matchedCount", VNum (Z.of_nat matched))].

(** [Model.updateMany(filter, { $set: upd })]: applies the update to every
    matching document and resolves to the driver's summary: how many
    documents matched and how many of them the update changed. *)
Definition MeetingHistory_updateMany (q : doc) (upd : doc) : M value :=
  store_call (CallUpdateMany q upd) (fun w =>
    match compile_filter q with
    | Throw m => (Throw m, w)
    | Ok fl =>
        let hit (i : oid) (d : doc) := matches fl (with_id i d) in
        let matched :=
          List.filter (fun kd => hit kd.1 kd.2) (map_to_list (Meetings w)) in
        let modified :=
          List.filter
            (fun kd => negb (value_eqb (VObj (apply_set upd kd.2)) (VObj kd.2)))
            matched in
        (Ok (update_summary (length matched) (length modified)),
         set_Meetings
           (map_imap (fun i d => Some (if hit i d then apply_set upd d else d))
              (Meetings w))
           w)
    end).

(** ** The request handlers *)

(** What a handler reads of the request: the identity the auth middleware
    attached ([req.user.userId]), the path parameter [req.params.id], the
    query string [req.query] and the JSON body [req.body]. *)
Record request : Type := Request {
  req_user_userId : oid;
  req_params_id : oid;
  req_query : doc;
  req_body : value
}.

(** [res.status(status).json(payload)] (or [.send(payload)]). *)
Record response : Type := Response {
  status : Z;
  payload : value
}.

(** An error object in a JSON payload.  [res.json] writes the enumerable
    properties of the error: for a Mongoose validation error these include
    its message, which is what is kept here; a plain [Error] has none and
    is written as an empty object.  The properties below read the other
    fields of the payload only. *)
Definition err_json (err : string) : value := VObj [("message", VStr err)].

(** JS [null] for an absent document. *)
Definition doc_or_null (o : option doc) : value :=
  match o with
  | Some d => VObj d
  | None => VNull
  end.

Definition add (req : request) : M response :=
  try_catch
    (result <- MeetingHistory_new (req_body req) ;;
     _ <- MeetingHistory_save result ;;
     ret (Response 200 (VObj result)))
    (fun err =>
       _ <- console_error "Failed to create :" err ;;
       ret (Response 400
              (VObj [("err", err_json err);
                     ("error", VStr "Failed to create")]))).

(** The name of the creator reference in stored meetings and in filters
    (the spec calls it createdBy). *)
Definition creator_field : string := "createBy".

(** [user?.role !== "superAdmin"], negated. *)
Definition is_superAdmin (user : option doc) : bool :=
  match user with
  | Some u =>
      match doc_get "role" u with
      | Some (VStr r) => String.eqb r "superAdmin"
      | _ => false
      end
  | None => false
  end.

(** The query [index] builds from the request and the fetched user.
    [mongoose.Types.ObjectId(req.user.userId)] is the actor's identity
    itself, since identities are kept after the cast. *)
Definition index_query (req : request) (user : option doc) : doc :=
  let query := req_query req in
  let query := doc_set "deleted" (VBool false) query in
  if negb (is_superAdmin user)
  then doc_set creator_field (VOid (req_user_userId req)) query
  else query.

Definition createdByName_plain : expr :=
  Concat [Field ["createdByData"; "firstName"];
          Lit (VStr " ");
          Field ["createdByData"; "lastName"]].

Definition index_pipeline (query : doc) : list stage :=
  [ Match query;
    Lookup "User" creator_field "_id" "createdByData";
    Unwind "createdByData" true;
    AddFields [("createdByName", createdByName_plain)];
    Project ["_id"; "agenda"; "dateTime"; "timestamp"; "createdByName"] ].

Definition index (req : request) : M response :=
  user <- User_findById (req_user_userId req) ;;
  let query := index_query req user in
  try_catch
    (result <- MeetingHistory_aggregate (index_pipeline query) ;;
     ret (Response 200 (VArr (VObj <$> result))))
    (fun error =>
       _ <- console_error "Error fetching meeting history:" error ;;
       ret (Response 500 (VStr "Internal Server Error"))).

Definition createdByName_str : expr :=
  Concat [ToString (Field ["createdByData"; "firstName"]);
          Lit (VStr " ");
          ToString (Field ["createdByData"; "lastName"])].

Definition attendesNames : expr :=
  MapE (Field ["attendesData"]) "attendee"
    (Concat [ToString (Var "attendee" ["firstName"]);
             Lit (VStr " ");
             ToString (Var "attendee" ["lastName"])]).

(** The stages of the view pipeline after its [$match]. *)
Definition view_joins : list stage :=
  [ Lookup "User" creator_field "_id" "createdByData";
    Unwind "createdByData" true;
    Lookup "Contacts" "attendes" "_id" "attendesData";
    Unwind "attendesData" true;
    AddFields [("createdByName", createdByName_str);
               ("attendesNames", attendesNames)];
    Project ["_id"; "agenda"; "dateTime"; "timestamp"; "createdByName";
             "location"; "attendesNames"; "notes"] ].

Definition view_pipeline (id : value) : list stage :=
  Match [("_id", id)] :: view_joins.

Definition view (req : request) : M response :=
  try_catch
    (response <- MeetingHistory_findOne [("_id", VOid (req_params_id req))] ;;
     match response with
     | None =>
         ret (Response 404 (VObj [("message", VStr "No meeting found.")]))
     | Some response =>
         result <- MeetingHistory_aggregate
                     (view_pipeline (default VNull (doc_get "_id" response))) ;;
         match result with
         | [] =>
             ret (Response 404
                    (VObj [("message",
                            VStr "No data found for this meeting.")]))
         | first :: _ => ret (Response 200 (VObj first))
         end
     end)
    (fun err =>
       _ <- console_error "Error fetching meeting details:" err ;;
       ret (Response 400 (VObj [("error", VStr err)]))).

(** The confirmation message of [deleteData]. *)
Definition deleted_msg : value := VStr "Meeting deleted successfully".

Definition deleteData (req : request) : M response :=
  try_catch
    (result <- MeetingHistory_findByIdAndUpdate (req_params_id req)
                 [("deleted", VBool true)] ;;
     ret (Response 200
            (VObj [("message", deleted_msg);
                   ("result", doc_or_null result)])))
    (fun err =>
       _ <- console_error "Failed to delete meeting:" err ;;
       ret (Response 400 (VObj [("error", VStr "Failed to delete meeting")]))).

Definition deleteMany (req : request) : M response :=
  try_catch
    (result <- MeetingHistory_updateMany
                 [("_id", VObj [("$in", req_body req)])]
                 [("deleted", VBool true)] ;;
     ret (Response 200
            (VObj [("message", VStr "Meetings deleted successfully");
                   ("result", result)])))
    (fun err =>
       _ <- console_error "Failed to delete meetings:" err ;;
       ret (Response 400 (VObj [("error", VStr "Failed to delete meetings")]))).

(** ** Sample data *)

Module Sample.

Definition ada : doc :=
  [("firstName", VStr "Ada"); ("lastName", VStr "Lovelace");
   ("role", VStr "user")].
Definition root : doc :=
  [("firstName", VStr "Grace"); ("lastName", VStr "Hopper");
   ("role", VStr "superAdmin")].
Definition bob : doc := [("firstName", VStr "Bob"); ("lastName", VStr "Stone")].
Definition cy : doc := [("firstName", VStr "Cy"); ("lastName", VStr "Young")].

(** Users 1 (ada) and 2 (root, a superAdmin), contacts 11 and 12, no
    meeting yet; the next meeting gets identity 100. *)
Definition empty_world : world :=
  World ∅ {[ 1%N := ada; 2%N := root ]} {[ 11%N := bob; 12%N := cy ]}
    [] 100%N "2024-01-01T09:00:00.000Z" [] [].

(** The meeting of the scenario: created by user 1, attended by contacts
    11 and 12. *)
Definition sync_body : value :=
  VObj [("agenda", VStr "Sync");
        ("dateTime", VStr "2024-01-01T10:00:00Z");
        ("location", VStr "Room 4");
        ("notes", VStr "weekly");
        (creator_field, VOid 1);
        ("attendes", VArr [VOid 11; VOid 12])].

(** The same meeting without attendees. *)
Definition solo_body : value :=
  VObj [("agenda", VStr "Sync");
        ("dateTime", VStr "2024-01-01T10:00:00Z");
        ("location", VStr "Room 4");
        ("notes", VStr "weekly");
        (creator_field, VOid 1);
        ("attendes", VArr [])].

(** A request of user [u] about meeting [i]. *)
Definition req_of (u i : oid) (q : doc) (b : value) : request :=
  Request u i q b.

(** The world after user 1 has created a meeting with body [b]; the
    meeting gets identity 100. *)
Definition after_add (b : value) : world :=
  (add (req_of 1 0 [] b) empty_world).2.

(** Two meetings, 100 (with attendees) and 101 (without). *)
Definition two_meetings : world :=
  (add (req_of 1 0 [] solo_body) (after_add sync_body)).2.

(** The world of [after_add], after user 2 has soft-deleted meeting 100. *)
Definition after_delete (b : value) : world :=
  (deleteData (req_of 2 100 [] VNull) (after_add b)).2.

End Sample.

(** A field of the JSON object a handler answered with. *)
Definition answered (k : string) (out : result response * world)
  : option value :=
  match out.1 with
  | Ok (Response _ (VObj d)) => doc_get k d
  | _ => None
  end.

(** A field of a JSON object value. *)
Definition field_of (k : string) (v : value) : option value :=
  match v with
  | VObj d => doc_get k d
  | _ => None
  end.

(** ** Induction on values *)

(** The induction principle of [value] that reaches the elements of arrays
    and the fields of objects. *)
Section value_induction.
Variable P : value → Prop.
Hypothesis HNull : P VNull.
Hypothesis HBool : ∀ b, P (VBool b).
Hypothesis HNum : ∀ n, P (VNum n).
Hypothesis HStr : ∀ s, P (VStr s).
Hypothesis HOid : ∀ i, P (VOid i).
Hypothesis HDate : ∀ s, P (VDate s).
Hypothesis HArr : ∀ l, Forall P l → P (VArr l).
Hypothesis HObj : ∀ fs, Forall (λ kv, P kv.2) fs → P (VObj fs).

Fixpoint value_nested_ind (v : value) : P v :=
  match v with
  | VNull => HNull
  | VBool b => HBool b
  | VNum n => HNum n
  | VStr s => HStr s
  | VOid i => HOid i
  | VDate s => HDate s
  | VArr l =>
      HArr l
        ((fix go (l : list value) : Forall P l :=
            match l with
            | [] => @List.Forall_nil _ P
            | x :: l' => @List.Forall_cons _ P x l' (value_nested_ind x) (go l')
            end) l)
  | VObj fs =>
      HObj fs
        ((fix go (fs : list (string * value)) : Forall (λ kv, P kv.2) fs :=
            match fs with
            | [] => @List.Forall_nil _ _
            | (k, x) :: fs' =>
                @List.Forall_cons _ (λ kv, P kv.2) (k, x) fs'
                  (value_nested_ind x) (go fs')
            end) fs)
  end.
End value_induction.

(** ** Pipelines and the fields they carry *)

(** A stage that leaves the field [k] of the documents it passes on as it
    found it. *)
Definition stage_keeps (k : string) (s : stage) : Prop :=
  match s with
  | Match _ => True
  | Lookup _ _ _ as_ => as_ <> k
  | Unwind path _ => path <> k
  | AddFields fs => Forall (fun ke => ke.1 <> k) fs
  | Project fs => existsb (String.eqb k) fs = true
  end.

(** A stage that drops no document: every stage but [$match], with
    [$unwind] preserving null and empty arrays. *)
Definition stage_passes (s : stage) : Prop :=
  match s with
  | Match _ => False
  | Unwind _ preserve => preserve = true
  | _ => True
  end.

(** The fields the list projects and the fields the view projects. *)
Definition index_fields : list string :=
  ["_id"; "agenda"; "dateTime"; "timestamp"; "createdByName"].

Definition view_fields : list string :=
  ["_id"; "agenda"; "dateTime"; "timestamp"; "createdByName";
   "location"; "attendesNames"; "notes"].

(** The stages of the list pipeline after its [$match]. *)
Definition index_joins : list stage :=
  [ Lookup "User" creator_field "_id" "createdByData";
    Unwind "createdByData" true;
    AddFields [("createdByName", createdByName_plain)];
    Project index_fields ].

(** The users the creator join of a meeting finds. *)
Definition creators (w : world) (d : doc) : list doc :=
  List.filter (lookup_matches (doc_get creator_field d) "_id")
    (docs_of (Users w)).

(** The names of the fields of a document. *)
Definition keys (d : doc) : list string := d.*1.

(** ** The router *)

(** The five routes of [_routes.js] as Express has matched them: the method,
    the path and the [:id] parameter of the path. *)
Inductive route : Type :=
| GET_root
| POST_add
| GET_view (id : oid)
| DELETE_delete (id : oid)
| POST_deleteMany.

(** The handler each route names. *)
Definition route_handler (r : route) : request -> M response :=
  match r with
  | GET_root => index
  | POST_add => add
  | GET_view _ => view
  | DELETE_delete _ => deleteData
  | POST_deleteMany => deleteMany
  end.

(** [req.params.id]; the routes without [:id] have none, and their handlers
    do not read it. *)
Definition route_id (r : route) : oid :=
  match r with
  | GET_view i | DELETE_delete i => i
  | _ => 0%N
  end.

(** What a middleware does with a request: it calls [next()], here with the
    identity it attached as [req.user.userId], or it answers itself. *)
Inductive auth_outcome : Type :=
| Next (userId : oid)
| Answered (res : response).

Section Router.

(** The auth middleware ([middelwares/auth] is not among the sources) is a
    parameter: a function of what the request carries as credentials. *)
Variable credentials : Type.
Variable auth : credentials -> auth_outcome.

(** [router.METHOD(path, auth, handler)]: the handler runs only when [auth]
    has called [next()]. *)
Definition serve (r : route) (c : credentials) (query : doc) (body : value)
  : M response :=
  match auth c with
  | Answered res => ret res
  | Next uid => route_handler r (Request uid (route_id r) query body)
  end.

End Router.

(** The row of the list for a sample meeting, and a sample meeting as it is
    stored. *)
Definition sample_row (i : oid) : doc :=
  [("_id", VOid i); ("agenda", VStr "Sync");
   ("dateTime", VStr "2024-01-01T10:00:00Z");
   ("timestamp", VDate "2024-01-01T09:00:00.000Z");
   ("createdByName", VStr "Ada Lovelace")].

Definition sample_stored (attendes : list value) (deleted : bool) : doc :=
  [("agenda", VStr "Sync"); ("dateTime", VStr "2024-01-01T10:00:00Z");
   ("location", VStr "Room 4"); ("notes", VStr "weekly");
   (creator_field, VOid 1); ("attendes", VArr attendes);
   ("timestamp", VDate "2024-01-01T09:00:00.000Z");
   ("deleted", VBool deleted)].

(** What every route keeps of the store: each stored meeting is still
    stored, as it was or with [deleted] set to true, and the users and the
    contacts are as they were. *)
Definition kept (w w' : world) : Prop :=
  (forall i d, Meetings w !! i = Some d ->
     exists d', Meetings w' !! i = Some d' /\
                (d' = d \/ d' = doc_set "deleted" (VBool true) d)) /\
  Users w' = Users w /\ Contacts w' = Contacts w.

(** What a read-only route keeps: the three collections. *)
Definition same_store (w w' : world) : Prop :=
  Meetings w' = Meetings w /\ Users w' = Users w /\ Contacts w' = Contacts w.

(** An auth middleware for the sample data: a request either carries the
    identity of its user or carries nothing and is answered 401. *)
Definition sample_auth (c : option oid) : auth_outcome :=
  match c with
  | Some uid => Next uid
  | None => Answered (Response 401 (VObj [("message", VStr "Unauthorized")]))
  end.

(** A store with meetings of several creators: meetings 100 and 101 of
    user 1, meeting 102 of user 2 (the superAdmin), and meeting 103 whose
    creator, 9, has no User record. *)
Definition sample_body_of (creator : oid) (agenda : string) : value :=
  VObj [("agenda", VStr agenda);
        ("dateTime", VStr "2024-01-02T10:00:00Z");
        ("location", VStr "Room 5");
        ("notes", VStr "monthly");
        (creator_field, VOid creator);
        ("attendes", VArr [])].

Definition sample_stored_of (creator : oid) (agenda : string) : doc :=
  [("agenda", VStr agenda); ("dateTime", VStr "2024-01-02T10:00:00Z");
   ("location", VStr "Room 5"); ("notes", VStr "monthly");
   (creator_field, VOid creator); ("attendes", VArr []);
   ("timestamp", VDate "2024-01-01T09:00:00.000Z");
   ("deleted", VBool false)].

Definition sample_row_of (i : oid) (agenda : string) (name : value) : doc :=
  [("_id", VOid i); ("agenda", VStr agenda);
   ("dateTime", VStr "2024-01-02T10:00:00Z");
   ("timestamp", VDate "2024-01-01T09:00:00.000Z");
   ("createdByName", name)].

Definition several_creators : world :=
  let w := Sample.two_meetings in
  let w := (add (Sample.req_of 2 0 [] (sample_body_of 2 "Review")) w).2 in
  (add (Sample.req_of 9 0 [] (sample_body_of 9 "Handover")) w).2.

(** * Properties *)

(** ** Documents *)

Lemma doc_get_set_eq (k : string) (v : value) (d : doc) :
  doc_get k (doc_set k v d) = Some v.
Proof.
  induction d as [|[k' v'] d IH]; simpl.
  - by rewrite String.eqb_refl.
  - destruct (String.eqb k k') eqn:E; simpl.
    + by rewrite String.eqb_refl.
    + by rewrite E.
Qed.

Lemma doc_get_set_ne (k k' : string) (v : value) (d : doc) :
  k ≠ k' → doc_get k' (doc_set k v d) = doc_get k' d.
Proof.
  intros Hne. induction d as [|[k0 v0] d IH]; simpl.
  - destruct (String.eqb k' k) eqn:E; [|done].
    apply String.eqb_eq in E. congruence.
  - destruct (String.eqb k k0) eqn:E; simpl.
    + apply String.eqb_eq in E. subst k0.
      destruct (String.eqb k' k) eqn:E'; [|done].
      apply String.eqb_eq in E'. congruence.
    + by rewrite IH.
Qed.

Lemma doc_get_unset_ne (k k' : string) (d : doc) :
  k ≠ k' → doc_get k' (doc_unset k d) = doc_get k' d.
Proof.
  intros Hne. induction d as [|[k0 v0] d IH]; simpl; [done|].
  destruct (String.eqb k k0) eqn:E; simpl.
  - apply String.eqb_eq in E. subst k0. rewrite IH.
    destruct (String.eqb k' k) eqn:E'; [|done].
    apply String.eqb_eq in E'. congruence.
  - by rewrite IH.
Qed.

Lemma doc_set_set (k : string) (v u : value) (d : doc) :
  doc_set k v (doc_set k u d) = doc_set k v d.
Proof.
  induction d as [|[k' v'] d IH]; simpl.
  - by rewrite String.eqb_refl.
  - destruct (String.eqb k k') eqn:E; simpl.
    + by rewrite String.eqb_refl.
    + by rewrite E, IH.
Qed.

Lemma doc_set_id (k : string) (v : value) (d : doc) :
  doc_set k v d = d ↔ doc_get k d = Some v.
Proof.
  split.
  - intros <-. apply doc_get_set_eq.
  - induction d as [|[k' v'] d IH]; simpl; [done|].
    destruct (String.eqb k k') eqn:E.
    + apply String.eqb_eq in E as ->. by intros [= ->].
    + intros H. by rewrite IH.
Qed.

Lemma is_deleted_true (d : doc) :
  is_deleted d = true ↔ doc_get "deleted" d = Some (VBool true).
Proof.
  unfold is_deleted.
  destruct (doc_get "deleted" d) as [[| [] | | | | | |]|];
    split; congruence.
Qed.

Lemma doc_unset_set_ne (k k' : string) (v : value) (d : doc) :
  k ≠ k' → doc_unset k (doc_set k' v d) = doc_set k' v (doc_unset k d).
Proof.
  intros Hne. induction d as [|[k0 v0] d IH]; simpl.
  - destruct (String.eqb k k') eqn:E; [|done].
    apply String.eqb_eq in E. congruence.
  - destruct (String.eqb k' k0) eqn:E1; destruct (String.eqb k k0) eqn:E2;
      simpl; rewrite ?E1, ?E2; try done.
    + apply String.eqb_eq in E1, E2. congruence.
    + apply String.eqb_eq in E1 as ->.
      destruct (String.eqb k k0) eqn:E3; [|done]. congruence.
    + by rewrite IH.
Qed.

Lemma doc_unset_set_eq (k : string) (v : value) (d : doc) :
  doc_unset k (doc_set k v d) = doc_unset k d.
Proof.
  induction d as [|[k0 v0] d IH]; simpl.
  - by rewrite String.eqb_refl.
  - destruct (String.eqb k k0) eqn:E; simpl.
    + by rewrite String.eqb_refl.
    + by rewrite E, IH.
Qed.

Lemma doc_unset_comm (k k' : string) (d : doc) :
  doc_unset k (doc_unset k' d) = doc_unset k' (doc_unset k d).
Proof.
  induction d as [|[k0 v0] d IH]; simpl; [done|].
  destruct (String.eqb k' k0) eqn:E1; destruct (String.eqb k k0) eqn:E2;
    simpl; rewrite ?E1, ?E2; by rewrite ?IH.
Qed.

(** ** Equality of values *)

Lemma value_eqb_oid (i : oid) (v : value) :
  value_eqb (VOid i) v = true ↔ v = VOid i.
Proof.
  destruct v; simpl; try (split; [discriminate|discriminate]).
  rewrite N.eqb_eq. split; congruence.
Qed.

Lemma value_eqb_eq (a b : value) : value_eqb a b = true → a = b.
Proof.
  revert b. induction a as [| | | | | |l IH|fs IH] using value_nested_ind;
    intros [] Heq; simpl in Heq; try discriminate.
  - done.
  - by apply Bool.eqb_prop in Heq as ->.
  - by apply Z.eqb_eq in Heq as ->.
  - by apply String.eqb_eq in Heq as ->.
  - by apply N.eqb_eq in Heq as ->.
  - by apply String.eqb_eq in Heq as ->.
  - f_equal. revert elems Heq.
    induction IH as [|x l Hx _ IHl]; intros [|y ys] Heq; try done.
    apply andb_true_iff in Heq as [H1 H2].
    f_equal; [by apply Hx|by apply IHl].
  - f_equal. revert fields Heq.
    induction IH as [|[k x] l Hx _ IHl]; intros [|[k' y] ys] Heq; try done.
    apply andb_true_iff in Heq as [H1 H3].
    apply andb_true_iff in H1 as [H1 H2].
    apply String.eqb_eq in H1 as ->.
    f_equal; [f_equal; by apply Hx|by apply IHl].
Qed.

Lemma value_eqb_refl (a : value) : value_eqb a a = true.
Proof.
  induction a as [| | | | | |l IH|fs IH] using value_nested_ind; simpl.
  - done.
  - by destruct b.
  - apply Z.eqb_refl.
  - apply String.eqb_refl.
  - apply N.eqb_refl.
  - apply String.eqb_refl.
  - induction IH as [|x l Hx _ IHl]; [done|]. by rewrite Hx, IHl.
  - induction IH as [|[k x] l Hx _ IHl]; [done|].
    simpl in Hx. by rewrite String.eqb_refl, Hx, IHl.
Qed.

(** The update changes a document exactly when its flag was not yet true. *)
Lemma set_deleted_changes (d : doc) :
  negb (value_eqb (VObj (doc_set "deleted" (VBool true) d)) (VObj d)) =
  negb (is_deleted d).
Proof.
  f_equal. destruct (value_eqb _ _) eqn:E.
  - apply value_eqb_eq in E. injection E as E.
    apply doc_set_id in E. unfold is_deleted. by rewrite E.
  - destruct (is_deleted d) eqn:Hd; [|done].
    apply is_deleted_true, doc_set_id in Hd.
    rewrite Hd, value_eqb_refl in E. done.
Qed.

(** ** Store calls *)

Lemma store_call_ok {A} (c : call) (op : M A) (w : world) :
  calls_ok 1 (faults w) = true → store_call c op w = op (issue c w).
Proof.
  unfold store_call. destruct (faults w) as [|[e|] fs]; simpl; done.
Qed.

Lemma store_call_fail {A} (c : call) (op : M A) (w : world) e fs :
  faults w = Some e :: fs → store_call c op w = (Throw e, issue c w).
Proof. unfold store_call. by intros ->. Qed.

Lemma calls_ok_tail (n : nat) (fs : list (option string)) :
  calls_ok (S n) fs = true → calls_ok n (tail fs) = true.
Proof. destruct fs as [|[e|] fs]; simpl; try done. by destruct n. Qed.

Lemma calls_ok_1 (n : nat) (fs : list (option string)) :
  calls_ok (S n) fs = true → calls_ok 1 fs = true.
Proof. destruct fs as [|[e|] fs]; simpl; done. Qed.

Lemma aggregate_run (p : list stage) (w : world) :
  MeetingHistory_aggregate p w =
    match head (faults w) with
    | Some (Some e) => (Throw e, issue (CallAggregate p) w)
    | _ => (run_pipeline (collection w) p (docs_of (Meetings w)),
            issue (CallAggregate p) w)
    end.
Proof.
  unfold MeetingHistory_aggregate, store_call.
  by destruct (head (faults w)) as [[e|]|].
Qed.

(** ** Filters and pipeline stages *)

Lemma matches_id (i k : oid) (d : doc) :
  matches [("_id", CEq (VOid i))] (with_id k d) = N.eqb k i.
Proof. unfold matches. simpl. apply andb_true_r. Qed.

Lemma matches_in (ids : list oid) (k : oid) (d : doc) :
  matches [("_id", CIn (VOid <$> ids))] (with_id k d) = bool_decide (k ∈ ids).
Proof.
  change (matches _ _)
    with (existsb (eq_matches (Some (VOid k))) (VOid <$> ids) && true).
  rewrite andb_true_r. apply eq_true_iff_eq.
  rewrite existsb_exists, bool_decide_eq_true. split.
  - intros (x & Hin & Hm).
    apply list_elem_of_In, list_elem_of_fmap in Hin as (a & -> & Ha).
    apply N.eqb_eq in Hm. by subst a.
  - intros Hk. exists (VOid k). split; [|apply N.eqb_refl].
    apply list_elem_of_In, list_elem_of_fmap. eauto.
Qed.

Lemma compile_in (vs : list value) :
  compile_filter [("_id", VObj [("$in", VArr vs)])] = Ok [("_id", CIn vs)].
Proof. reflexivity. Qed.

Lemma matches_lookup (q : doc) (fl : list (string * cond)) (k : string)
    (v : value) (c : cond) (x : doc) :
  compile_filter q = Ok fl →
  doc_get k q = Some v →
  cond_of v = Ok c →
  matches fl x = true →
  cond_matches (doc_get k x) c = true.
Proof.
  revert fl. induction q as [|[k' v'] q IH]; intros fl Hfl Hget Hc Hm.
  - discriminate.
  - simpl in Hfl, Hget.
    destruct (cond_of v') as [c'|] eqn:Hc'; [|discriminate].
    destruct (compile_filter q) as [cs|] eqn:Hcs; [|discriminate].
    injection Hfl as <-. unfold matches in Hm. simpl in Hm.
    apply andb_true_iff in Hm as [Hhd Htl].
    destruct (String.eqb k k') eqn:E.
    + apply String.eqb_eq in E as ->. injection Hget as ->.
      rewrite Hc in Hc'. by injection Hc' as <-.
    + by apply (IH cs).
Qed.

Lemma find_by_id (m : gmap oid doc) (i : oid) :
  List.find (matches [("_id", CEq (VOid i))]) (docs_of m) =
    with_id i <$> m !! i.
Proof.
  destruct (List.find _ _) as [x|] eqn:Hfind.
  - apply find_some in Hfind as [Hin Hm].
    apply list_elem_of_In, list_elem_of_fmap in Hin as [[k d] [-> Hkd]].
    apply elem_of_map_to_list in Hkd.
    change (matches [("_id", CEq (VOid i))] (with_id k d) = true) in Hm.
    rewrite matches_id in Hm. apply N.eqb_eq in Hm. subst k.
    by rewrite Hkd.
  - destruct (m !! i) as [d|] eqn:Hl; [|done]. exfalso.
    eapply find_none in Hfind.
    2: { apply list_elem_of_In, list_elem_of_fmap. exists (i, d).
         split; [done|]. by apply elem_of_map_to_list. }
    change (matches [("_id", CEq (VOid i))] (with_id i d) = false) in Hfind.
    rewrite matches_id, N.eqb_refl in Hfind. done.
Qed.

Lemma doc_get_project (k : string) (fs : list string) (d : doc) :
  existsb (String.eqb k) fs = true →
  doc_get k (project fs d) = doc_get k d.
Proof.
  intros Hk. unfold project. induction d as [|[k' v] d IH]; simpl; [done|].
  destruct (String.eqb k k') eqn:E.
  - apply String.eqb_eq in E as <-. rewrite Hk. simpl.
    by rewrite String.eqb_refl.
  - destruct (existsb (String.eqb k') fs); simpl; [by rewrite E|done].
Qed.

Lemma unwind_keeps (path k : string) (b : bool) (d d' : doc) :
  path ≠ k → d' ∈ unwind path b d → doc_get k d' = doc_get k d.
Proof.
  intros Hne. unfold unwind.
  destruct (doc_get path d) as [[| | | | | |[|x xs]|]|]; try destruct b;
    intros Hin;
    try (apply list_elem_of_singleton in Hin as ->);
    try (by apply elem_of_nil in Hin); try done.
  - by apply doc_get_unset_ne.
  - apply list_elem_of_fmap in Hin as (y & -> & _). by apply doc_get_set_ne.
  - apply list_elem_of_fmap in Hin as (y & -> & _). by apply doc_get_set_ne.
Qed.

Lemma unwind_preserve_nonempty (path : string) (d : doc) :
  ∃ d', d' ∈ unwind path true d.
Proof.
  unfold unwind.
  destruct (doc_get path d) as [[| | | | | |[|x xs]|]|];
    eexists; simpl; by left.
Qed.

Lemma add_fields_keeps (fs : list (string * expr)) (k : string)
    (d0 d d' : doc) :
  Forall (λ ke, ke.1 ≠ k) fs →
  add_fields fs d0 d = Ok d' → doc_get k d' = doc_get k d.
Proof.
  intros Hfs. revert d. induction Hfs as [|[k' e] fs Hk _ IH]; intros d; simpl.
  - by intros [= <-].
  - destruct (eval [] d0 e) as [[v|]|]; [| |done]; intros H.
    + rewrite (IH _ H). by apply doc_get_set_ne.
    + by apply IH.
Qed.

Lemma map_result_elem {A B} (f : A → result B) (l : list A) (l' : list B)
    (y : B) :
  map_result f l = Ok l' → y ∈ l' → ∃ x, x ∈ l ∧ f x = Ok y.
Proof.
  revert l'. induction l as [|x l IH]; intros l'; simpl.
  - intros [= <-] Hin. by apply elem_of_nil in Hin.
  - destruct (f x) as [y0|] eqn:Hx; [|by destruct (map_result f l)].
    destruct (map_result f l) as [ys|]; [|done].
    intros [= <-] Hin. apply elem_of_cons in Hin as [->|Hin].
    + exists x. split; [by left|done].
    + destruct (IH ys eq_refl Hin) as (x' & Hx' & Hf).
      exists x'. split; [by right|done].
Qed.

Lemma map_result_throw {A B} (f : A → result B) (l : list A) (x : A) :
  x ∈ l → (∃ m, f x = Throw m) → ∃ m, map_result f l = Throw m.
Proof.
  intros Hin [m Hm]. induction l as [|y l IH].
  - by apply elem_of_nil in Hin.
  - apply elem_of_cons in Hin as [<-|Hin]; simpl.
    + rewrite Hm. eauto.
    + destruct (IH Hin) as [m' Hm']. rewrite Hm'. destruct (f y); eauto.
Qed.

Lemma run_pipeline_cons (coll : string → list doc) (s : stage)
    (p : list stage) (ds : list doc) :
  run_pipeline coll (s :: p) ds =
    match run_stage coll s ds with
    | Ok ds' => run_pipeline coll p ds'
    | Throw m => Throw m
    end.
Proof. reflexivity. Qed.

Lemma filter_cons_docs (k : oid) (x : doc) (l : list (oid * doc)) (i : oid) :
  List.filter (matches [("_id", CEq (VOid i))])
    ((λ kd, with_id kd.1 kd.2) <$> (k, x) :: l) =
  if N.eqb k i
  then with_id k x :: List.filter (matches [("_id", CEq (VOid i))])
                        ((λ kd, with_id kd.1 kd.2) <$> l)
  else List.filter (matches [("_id", CEq (VOid i))])
         ((λ kd, with_id kd.1 kd.2) <$> l).
Proof.
  rewrite fmap_cons. cbn [List.filter fst snd]. by rewrite matches_id.
Qed.

Lemma filter_by_id_absent (l : list (oid * doc)) (i : oid) :
  i ∉ l.*1 →
  List.filter (matches [("_id", CEq (VOid i))])
    ((λ kd, with_id kd.1 kd.2) <$> l) = [].
Proof.
  induction l as [|[k x] l IH]; intros Hni; [done|].
  rewrite filter_cons_docs. rewrite fmap_cons in Hni.
  apply not_elem_of_cons in Hni as [Hne Hni]. simpl in Hne.
  destruct (N.eqb_spec k i) as [->|_]; [done|]. by apply IH.
Qed.

Lemma filter_by_id_present (l : list (oid * doc)) (i : oid) (d : doc) :
  NoDup l.*1 → (i, d) ∈ l →
  List.filter (matches [("_id", CEq (VOid i))])
    ((λ kd, with_id kd.1 kd.2) <$> l) = [with_id i d].
Proof.
  induction l as [|[k x] l IH]; intros Hnd Hin.
  - by apply elem_of_nil in Hin.
  - rewrite fmap_cons in Hnd. apply NoDup_cons in Hnd as [Hk Hnd].
    simpl in Hk. rewrite filter_cons_docs.
    apply elem_of_cons in Hin as [[= <- <-]|Hin].
    + by rewrite N.eqb_refl, filter_by_id_absent.
    + destruct (N.eqb_spec k i) as [->|_]; [|by apply IH].
      exfalso. apply Hk. apply list_elem_of_fmap. by exists (i, d).
Qed.

(** Identities are unique: a match on [_id] finds at most one document. *)
Lemma match_by_id (m : gmap oid doc) (i : oid) :
  List.filter (matches [("_id", CEq (VOid i))]) (docs_of m) =
    match m !! i with Some d => [with_id i d] | None => [] end.
Proof.
  unfold docs_of. destruct (m !! i) as [d|] eqn:Hd.
  - apply filter_by_id_present; [apply NoDup_fst_map_to_list|].
    by apply elem_of_map_to_list.
  - apply filter_by_id_absent. intros Hin.
    apply list_elem_of_fmap in Hin as ([k x] & -> & Hkx).
    apply elem_of_map_to_list in Hkx. simpl in Hd. congruence.
Qed.

Lemma project_unset (k : string) (fs : list string) (d : doc) :
  existsb (String.eqb k) fs = false →
  project fs (doc_unset k d) = project fs d.
Proof.
  intros Hk. unfold project. induction d as [|[k0 v0] d IH]; simpl; [done|].
  destruct (String.eqb k k0) eqn:E; simpl.
  - apply String.eqb_eq in E as <-. by rewrite Hk.
  - by rewrite IH.
Qed.

Lemma unwind_unset (path k : string) (b : bool) (d : doc) :
  path ≠ k →
  unwind path b (doc_unset k d) = doc_unset k <$> unwind path b d.
Proof.
  intros Hne. unfold unwind. rewrite doc_get_unset_ne by done.
  destruct (doc_get path d) as [[| | | | | |[|x xs]|]|]; try destruct b;
    try done.
  - simpl. by rewrite doc_unset_comm.
  - rewrite <- list_fmap_compose. apply list_fmap_ext. intros j y _. simpl.
    by rewrite doc_unset_set_ne.
  - rewrite <- list_fmap_compose. apply list_fmap_ext. intros j y _. simpl.
    by rewrite doc_unset_set_ne.
Qed.

Lemma unwind_blind (coll : string → list doc) (path k : string) (b : bool) :
  path ≠ k → stage_blind coll k (Unwind path b).
Proof.
  intros Hne ds. cbn [run_stage]. f_equal.
  induction ds as [|d ds IH]; [done|].
  rewrite fmap_cons, !bind_cons, fmap_app, IH. f_equal.
  by apply unwind_unset.
Qed.

Lemma lookup_blind (coll : string → list doc)
    (from localField foreignField as_ k : string) :
  localField ≠ k → as_ ≠ k →
  stage_blind coll k (Lookup from localField foreignField as_).
Proof.
  intros Hl Ha ds. cbn [run_stage]. f_equal.
  rewrite <- !list_fmap_compose. apply list_fmap_ext. intros j d _. simpl.
  rewrite doc_get_unset_ne by done. by rewrite doc_unset_set_ne.
Qed.

Lemma map_result_fmap {A B} (f : A → result B) (g : A → A) (h : B → B)
    (l : list A) :
  (∀ x, f (g x) = match f x with Ok y => Ok (h y) | Throw m => Throw m end) →
  map_result f (g <$> l) =
    match map_result f l with
    | Ok ys => Ok (h <$> ys)
    | Throw m => Throw m
    end.
Proof.
  intros Hfg. induction l as [|x l IH]; [done|].
  rewrite fmap_cons. cbn [map_result]. rewrite Hfg, IH.
  by destruct (f x), (map_result f l).
Qed.

Lemma run_pipeline_app (coll : string → list doc) (p : list stage) (s : stage)
    (ds : list doc) :
  run_pipeline coll (p ++ [s]) ds =
    match run_pipeline coll p ds with
    | Ok rs => run_stage coll s rs
    | Throw m => Throw m
    end.
Proof.
  revert ds. induction p as [|s0 p IH]; intros ds.
  - change (run_pipeline coll ([] ++ [s]) ds)
      with (match run_stage coll s ds with
            | Ok rs => Ok rs | Throw m => Throw m end).
    change (run_pipeline coll [] ds) with (@Ok (list doc) ds).
    by destruct (run_stage coll s ds).
  - change ((s0 :: p) ++ [s])%list with (s0 :: (p ++ [s]))%list.
    rewrite !run_pipeline_cons. destruct (run_stage coll s0 ds); [apply IH|done].
Qed.

Lemma run_pipeline_blind (coll : string → list doc) (k : string)
    (p : list stage) (ds : list doc) :
  Forall (stage_blind coll k) p →
  run_pipeline coll p (doc_unset k <$> ds) =
    match run_pipeline coll p ds with
    | Ok rs => Ok (doc_unset k <$> rs)
    | Throw m => Throw m
    end.
Proof.
  intros Hp. revert ds. induction Hp as [|s p Hs _ IH]; intros ds; [done|].
  rewrite !run_pipeline_cons, Hs.
  destruct (run_stage coll s ds); [apply IH|done].
Qed.

(** ** List *)

Lemma is_superAdmin_role (i : oid) (u : doc) :
  is_superAdmin (Some (with_id i u)) = true ↔
  doc_get "role" u = Some (VStr "superAdmin").
Proof.
  unfold is_superAdmin, with_id. simpl.
  destruct (doc_get "role" u) as [[]|]; try (split; [discriminate|congruence]).
  rewrite String.eqb_eq. split; congruence.
Qed.

Lemma index_query_deleted (req : request) (user : option doc) :
  doc_get "deleted" (index_query req user) = Some (VBool false).
Proof.
  unfold index_query. destruct (negb _).
  - rewrite doc_get_set_ne by done. apply doc_get_set_eq.
  - apply doc_get_set_eq.
Qed.

(** What [index] does once the user lookup has answered. *)
Lemma index_ok (req : request) (w : world) :
  calls_ok 1 (faults w) = true →
  let uid := req_user_userId req in
  let q := index_query req (with_id uid <$> Users w !! uid) in
  calls (index req w).2 =
    (calls w ++ [CallFindById uid; CallAggregate (index_pipeline q)])%list ∧
  (calls_ok 2 (faults w) = true →
   (index req w).1 =
     Ok (match run_pipeline (collection w) (index_pipeline q)
                 (docs_of (Meetings w)) with
         | Ok rows => Response 200 (VArr (VObj <$> rows))
         | Throw _ => Response 500 (VStr "Internal Server Error")
         end)) ∧
  ∃ r, (index req w).1 = Ok r.
Proof.
  intros Hok uid q.
  unfold index, bind, User_findById. rewrite (store_call_ok _ _ _ Hok).
  fold uid. change (Users (issue (CallFindById uid) w)) with (Users w).
  fold q. unfold try_catch, bind. rewrite aggregate_run.
  change (faults (issue (CallFindById uid) w)) with (tail (faults w)).
  change (collection (issue (CallFindById uid) w)) with (collection w).
  change (Meetings (issue (CallFindById uid) w)) with (Meetings w).
  destruct (run_pipeline (collection w) (index_pipeline q)
              (docs_of (Meetings w))) as [rows|m];
    destruct (faults w) as [|[e|] [|[e'|] fs]]; try done; simpl;
    rewrite <- ?app_assoc; simpl;
    (split; [done|split; [try done|eauto]]).
Qed.

(** Every row of the list pipeline carries the identity of a stored
    meeting that passes the filter. *)
Lemma index_rows (coll : string → list doc) (m : gmap oid doc) (q : doc)
    (rows : list doc) (r : doc) :
  run_pipeline coll (index_pipeline q) (docs_of m) = Ok rows →
  r ∈ rows →
  ∃ fl i d, compile_filter q = Ok fl ∧ m !! i = Some d ∧
            matches fl (with_id i d) = true ∧
            doc_get "_id" r = Some (VOid i).
Proof.
  unfold run_pipeline, index_pipeline. cbn [run_stage].
  destruct (compile_filter q) as [fl|] eqn:Hfl; [|done].
  destruct (map_result _ _) as [added|] eqn:Hadd; [|done].
  intros [= <-] Hr.
  apply list_elem_of_fmap in Hr as (r1 & -> & Hr1).
  destruct (map_result_elem _ _ _ _ Hadd Hr1) as (r2 & Hr2 & Hf).
  apply list_elem_of_bind in Hr2 as (r3 & Hr2 & Hr3).
  apply list_elem_of_fmap in Hr3 as (r4 & -> & Hr4).
  apply list_elem_of_In, filter_In in Hr4 as [Hr4 Hm].
  apply list_elem_of_In, list_elem_of_fmap in Hr4 as ([i d] & -> & Hid).
  apply elem_of_map_to_list in Hid.
  exists fl, i, d. split; [done|]. split; [done|]. split; [done|].
  rewrite doc_get_project by done.
  rewrite (add_fields_keeps [("createdByName", createdByName_plain)] "_id"
             r2 r2 r1) by (done || (constructor; [done|constructor])).
  rewrite (unwind_keeps "createdByData" "_id" _ _ _ (ltac:(done)) Hr2).
  by rewrite doc_get_set_ne by done.
Qed.

(** The meetings behind the rows [index] answers with are not soft-deleted,
    and for an actor who is not a superAdmin their creator field matches
    the actor. *)
Lemma index_lists_visible_only (req : request) (w : world)
    (rows : list value) (v : value) :
  let uid := req_user_userId req in
  calls_ok 2 (faults w) = true →
  (index req w).1 = Ok (Response 200 (VArr rows)) →
  v ∈ rows →
  ∃ row i d,
    v = VObj row ∧ doc_get "_id" row = Some (VOid i) ∧
    Meetings w !! i = Some d ∧ is_deleted d = false ∧
    (is_superAdmin (with_id uid <$> Users w !! uid) = false →
     eq_matches (doc_get creator_field d) (VOid uid) = true).
Proof.
  intros uid Hok Hresp Hv.
  destruct (index_ok req w (calls_ok_1 _ _ Hok)) as (_ & Hrun & _).
  rewrite (Hrun Hok) in Hresp. fold uid in Hresp.
  set (q := index_query req (with_id uid <$> Users w !! uid)) in *.
  destruct (run_pipeline _ _ _) as [rs|] eqn:Hrs; [|done].
  injection Hresp as <-.
  apply list_elem_of_fmap in Hv as (row & -> & Hrow).
  destruct (index_rows _ _ _ _ _ Hrs Hrow)
    as (fl & i & d & Hfl & Hd & Hm & Hid).
  exists row, i, d. split; [done|]. split; [done|]. split; [done|]. split.
  - pose proof (matches_lookup q fl "deleted" (VBool false) _ (with_id i d)
                  Hfl (index_query_deleted _ _) eq_refl Hm) as Hdel.
    unfold is_deleted. simpl in Hdel.
    destruct (doc_get "deleted" d) as [[| [] | | | | | |]|]; done.
  - intros Hrole.
    assert (Hq : doc_get creator_field q = Some (VOid uid)).
    { unfold q, index_query. rewrite Hrole. apply doc_get_set_eq. }
    exact (matches_lookup q fl creator_field (VOid uid) _ (with_id i d)
             Hfl Hq eq_refl Hm).
Qed.

(** ** View *)

Lemma findOne_by_id (i : oid) (w : world) :
  MeetingHistory_findOne [("_id", VOid i)] w =
    match head (faults w) with
    | Some (Some e) => (Throw e, issue (CallFindOne [("_id", VOid i)]) w)
    | _ => (Ok (with_id i <$> Meetings w !! i),
            issue (CallFindOne [("_id", VOid i)]) w)
    end.
Proof.
  unfold MeetingHistory_findOne, store_call.
  destruct (head (faults w)) as [[e|]|]; try done.
  all: change (compile_filter [("_id", VOid i)])
         with (@Ok (list (string * cond)) [("_id", CEq (VOid i))]).
  all: cbv beta iota.
  all: change (Meetings (issue _ w)) with (Meetings w).
  all: by rewrite find_by_id.
Qed.

(** The answers of [view] for a stored meeting, when the lookup reaches the
    store: a failure of the aggregation, from the store or from the
    pipeline itself, is a 400 with its message. *)
Lemma view_found (req : request) (w : world) (d : doc) :
  let i := req_params_id req in
  Meetings w !! i = Some d →
  calls_ok 1 (faults w) = true →
  (view req w).1 =
    Ok (match head (tail (faults w)) with
        | Some (Some e) => Response 400 (VObj [("error", VStr e)])
        | _ =>
            match run_pipeline (collection w) (view_pipeline (VOid i))
                    (docs_of (Meetings w)) with
            | Ok [] =>
                Response 404
                  (VObj [("message", VStr "No data found for this meeting.")])
            | Ok (first :: _) => Response 200 (VObj first)
            | Throw m => Response 400 (VObj [("error", VStr m)])
            end
        end).
Proof.
  intros i Hd Hok. unfold view, try_catch, bind. fold i.
  rewrite findOne_by_id, Hd.
  destruct (faults w) as [|[e|] fs] eqn:Hf; try done;
    cbn [head tail fmap option_fmap option_map].
  all: change (default VNull (doc_get "_id" (with_id i d))) with (VOid i).
  all: rewrite aggregate_run.
  all: change (faults (issue _ w)) with (tail (faults w)); rewrite Hf.
  all: change (collection (issue _ w)) with (collection w).
  all: change (Meetings (issue _ w)) with (Meetings w).
  all: cbn [head tail].
  - by destruct (run_pipeline _ _ _) as [[|first rest]|m].
  - destruct (head fs) as [[e|]|]; [done| |];
      by destruct (run_pipeline _ _ _) as [[|first rest]|m].
Qed.

(** The answers of [view] for an identity without a stored meeting. *)
Lemma view_absent (req : request) (w : world) :
  Meetings w !! req_params_id req = None →
  (view req w).1 =
    Ok (match head (faults w) with
        | Some (Some e) => Response 400 (VObj [("error", VStr e)])
        | _ => Response 404 (VObj [("message", VStr "No meeting found.")])
        end).
Proof.
  intros Hnone. unfold view, try_catch, bind.
  rewrite findOne_by_id, Hnone.
  by destruct (head (faults w)) as [[e|]|].
Qed.

(** C6. A view of an identity that no stored meeting has answers 404 with
    the message "No meeting found." when the store is reachable; a lookup
    that fails answers 400 with the message of the failure. *)
Theorem view_missing_id (req : request) (w : world) :
  Meetings w !! req_params_id req = None →
  (view req w).1 =
    Ok (match head (faults w) with
        | Some (Some e) => Response 400 (VObj [("error", VStr e)])
        | _ => Response 404 (VObj [("message", VStr "No meeting found.")])
        end).
Proof. exact (view_absent req w). Qed.

(** After [$unwind] has replaced the joined array by one of its elements,
    the [$map] over it is an error. *)
Lemma attendesNames_rejects_object (vars d o : doc) :
  doc_get "attendesData" d = Some (VObj o) →
  eval vars d attendesNames =
    Throw "input to $map must be an array not object".
Proof. intros H. unfold attendesNames. simpl. by rewrite H. Qed.

(** Whenever the attendee join of some document found at least one
    contact, the rest of the view pipeline throws. *)
Lemma view_tail_rejects_attendee (coll : string → list doc) (ds : list doc)
    (d o : doc) (os : list doc) :
  d ∈ ds →
  doc_get "attendesData" d = Some (VArr (VObj <$> o :: os)) →
  ∃ m, run_pipeline coll (drop 3 view_joins) ds = Throw m.
Proof.
  intros Hin Hd. unfold run_pipeline, view_joins. cbn [drop run_stage].
  destruct (map_result_throw
              (λ d, add_fields [("createdByName", createdByName_str);
                                ("attendesNames", attendesNames)] d d)
              (ds ≫= unwind "attendesData" true)
              (doc_set "attendesData" (VObj o) d)) as [m Hm].
  - apply list_elem_of_bind. exists d. split; [|done].
    unfold unwind. rewrite Hd. simpl. by left.
  - cbn [add_fields].
    destruct (eval [] _ createdByName_str) as [[v|]|m]; [| |by eauto].
    all: rewrite (attendesNames_rejects_object _ _ o)
      by apply doc_get_set_eq; eauto.
  - rewrite Hm. eauto.
Qed.

(** A stored meeting with an attendee reference that matches a stored
    contact cannot be viewed: the answer is a 400. *)
Lemma view_rejects_matched_attendee (req : request) (w : world)
    (d c : doc) (cs : list doc) :
  let i := req_params_id req in
  Meetings w !! i = Some d →
  calls_ok 2 (faults w) = true →
  List.filter (lookup_matches (doc_get "attendes" d) "_id")
    (docs_of (Contacts w)) = c :: cs →
  ∃ m, (view req w).1 = Ok (Response 400 (VObj [("error", VStr m)])).
Proof.
  intros i Hd Hok Hc.
  assert (Hthrow : ∃ m, run_pipeline (collection w) (view_pipeline (VOid i))
                          (docs_of (Meetings w)) = Throw m).
  { unfold view_pipeline, view_joins.
    rewrite run_pipeline_cons; cbn [run_stage].
    change (compile_filter [("_id", VOid i)])
      with (@Ok (list (string * cond)) [("_id", CEq (VOid i))]).
    cbv beta iota.
    do 3 (rewrite run_pipeline_cons; cbn [run_stage]).
    destruct (unwind_preserve_nonempty "createdByData"
      (doc_set "createdByData"
         (VArr (VObj <$> List.filter
                  (lookup_matches (doc_get creator_field (with_id i d)) "_id")
                  (collection w "User")))
         (with_id i d))) as [d3 Hd3].
    assert (Hatt : doc_get "attendes" d3 = doc_get "attendes" d).
    { rewrite (unwind_keeps "createdByData" "attendes" _ _ _ (ltac:(done)) Hd3).
      by rewrite doc_get_set_ne by done. }
    eapply (view_tail_rejects_attendee _ _
              (doc_set "attendesData" (VArr (VObj <$> c :: cs)) d3) c cs);
      [|apply doc_get_set_eq].
    apply list_elem_of_fmap. exists d3. split.
    - rewrite Hatt.
      change (collection w "Contacts") with (docs_of (Contacts w)).
      by rewrite Hc.
    - apply list_elem_of_bind. eexists. split; [exact Hd3|].
      apply list_elem_of_fmap. eexists. split; [reflexivity|].
      apply list_elem_of_In, filter_In.
      split; [|by rewrite matches_id, N.eqb_refl].
      apply list_elem_of_In, list_elem_of_fmap. exists (i, d).
      split; [done|by apply elem_of_map_to_list]. }
  destruct Hthrow as [m Hm].
  rewrite (view_found req w d Hd (calls_ok_1 _ _ Hok)). fold i. rewrite Hm.
  destruct (faults w) as [|[e|] [|[e'|] fs]]; try done; simpl; eauto.
Qed.

Lemma eval_createdByName_unset (k : string) (d : doc) :
  "createdByData" ≠ k →
  eval [] (doc_unset k d) createdByName_str = eval [] d createdByName_str.
Proof.
  intros Hne. unfold createdByName_str. simpl.
  by rewrite !doc_get_unset_ne.
Qed.

Lemma eval_attendesNames_unset (k : string) (d : doc) :
  "attendesData" ≠ k →
  eval [] (doc_unset k d) attendesNames = eval [] d attendesNames.
Proof.
  intros Hne. unfold attendesNames. simpl.
  by rewrite !doc_get_unset_ne.
Qed.

Lemma view_add_fields_blind (coll : string → list doc) :
  stage_blind coll "deleted"
    (AddFields [("createdByName", createdByName_str);
                ("attendesNames", attendesNames)]).
Proof.
  intros ds. cbn [run_stage]. apply map_result_fmap. intros d.
  cbn [add_fields].
  rewrite eval_createdByName_unset, eval_attendesNames_unset by done.
  destruct (eval [] d createdByName_str) as [[v|]|m];
    destruct (eval [] d attendesNames) as [[v'|]|m']; try done.
  all: by rewrite ?doc_unset_set_ne by done.
Qed.

(** The joins of the view pipeline do not read the [deleted] flag. *)
Lemma view_joins_unset (coll : string → list doc) (ds : list doc) :
  run_pipeline coll view_joins (doc_unset "deleted" <$> ds) =
  run_pipeline coll view_joins ds.
Proof.
  change view_joins with (take 5 view_joins ++ [Project
    ["_id"; "agenda"; "dateTime"; "timestamp"; "createdByName";
     "location"; "attendesNames"; "notes"]])%list.
  rewrite !run_pipeline_app, run_pipeline_blind.
  - destruct (run_pipeline coll (take 5 view_joins) ds) as [rs|m]; [|done].
    cbn [run_stage]. f_equal. rewrite <- list_fmap_compose.
    apply list_fmap_ext. intros j d _. by apply project_unset.
  - unfold view_joins. cbn [take].
    repeat apply Forall_cons_2; try apply Forall_nil_2.
    + by apply lookup_blind.
    + by apply unwind_blind.
    + by apply lookup_blind.
    + by apply unwind_blind.
    + apply view_add_fields_blind.
Qed.

Lemma view_pipeline_run (coll : string → list doc) (m : gmap oid doc)
    (i : oid) :
  run_pipeline coll (view_pipeline (VOid i)) (docs_of m) =
    run_pipeline coll view_joins
      (match m !! i with Some d => [with_id i d] | None => [] end).
Proof.
  unfold view_pipeline. rewrite run_pipeline_cons. cbn [run_stage].
  change (compile_filter [("_id", VOid i)])
    with (@Ok (list (string * cond)) [("_id", CEq (VOid i))]).
  cbv beta iota. by rewrite match_by_id.
Qed.

(** C1 (the code departs from it). A soft-deleted meeting is no longer
    listed, but a view of its identity still answers 200 with the record:
    [view] looks the meeting up by [_id] alone. *)
Theorem view_returns_soft_deleted :
  let w := Sample.after_delete Sample.solo_body in
  is_deleted <$> Meetings w !! 100%N = Some true ∧
  (index (Sample.req_of 1 0 [] VNull) w).1 = Ok (Response 200 (VArr [])) ∧
  (view (Sample.req_of 1 100 [] VNull) w).1 =
    Ok (Response 200
          (VObj [("_id", VOid 100); ("agenda", VStr "Sync");
                 ("dateTime", VStr "2024-01-01T10:00:00Z");
                 ("location", VStr "Room 4"); ("notes", VStr "weekly");
                 ("timestamp", VDate "2024-01-01T09:00:00.000Z");
                 ("createdByName", VStr "Ada Lovelace");
                 ("attendesNames", VNull)])).
Proof. vm_compute. done. Qed.

(** C3 (the code departs from it). For the meeting of the scenario, whose
    two attendees are stored contacts, the creation answers 200 and the
    view of the returned identity answers 400 with the error of [$map]; no
    agenda, creator name or attendee names are returned. *)
Theorem view_with_attendees_is_an_error :
  let created :=
    add (Sample.req_of 1 0 [] Sample.sync_body) Sample.empty_world in
  let seen := view (Sample.req_of 1 100 [] VNull) created.2 in
  answered "_id" created = Some (VOid 100) ∧
  Contacts created.2 !! 11%N = Some Sample.bob ∧
  Contacts created.2 !! 12%N = Some Sample.cy ∧
  seen.1 =
    Ok (Response 400
          (VObj [("error", VStr "input to $map must be an array not object")])).
Proof. vm_compute. done. Qed.

(** C4 (the code departs from it). The round trip holds for a body without
    attendees, and fails for the same body with two stored contacts as
    attendees: the view then answers 400 and returns none of the values
    supplied at creation. *)
Theorem view_round_trip_breaks_with_attendees :
  let keys := ["agenda"; "dateTime"; "location"; "notes"] in
  let seen b := view (Sample.req_of 1 100 [] VNull) (Sample.after_add b) in
  ((λ k, answered k (seen Sample.solo_body)) <$> keys) =
    ((λ k, field_of k Sample.solo_body) <$> keys) ∧
  ((λ k, field_of k Sample.sync_body) <$> keys) =
    [Some (VStr "Sync"); Some (VStr "2024-01-01T10:00:00Z");
     Some (VStr "Room 4"); Some (VStr "weekly")] ∧
  ((λ k, answered k (seen Sample.sync_body)) <$> keys) =
    [None; None; None; None] ∧
  (status <$> match (seen Sample.sync_body).1 with
              | Ok r => Some r
              | Throw _ => None
              end) = Some 400%Z.
Proof. vm_compute. done. Qed.

(** ** Soft delete of one meeting *)

Lemma deleteData_ok (req : request) (w : world) :
  calls_ok 1 (faults w) = true →
  deleteData req w =
    (Ok (Response 200
           (VObj [("message", deleted_msg);
                  ("result",
                   doc_or_null
                     (with_id (req_params_id req)
                        <$> Meetings w !! req_params_id req))])),
     set_Meetings
       (alter (doc_set "deleted" (VBool true)) (req_params_id req) (Meetings w))
       (issue (CallFindByIdAndUpdate (req_params_id req)
                 [("deleted", VBool true)]) w)).
Proof.
  intros Hok.
  unfold deleteData, try_catch, bind, MeetingHistory_findByIdAndUpdate.
  by rewrite (store_call_ok _ _ _ Hok).
Qed.

Lemma deleteData_fail (req : request) (w : world) e fs :
  faults w = Some e :: fs →
  (deleteData req w).1 =
    Ok (Response 400 (VObj [("error", VStr "Failed to delete meeting")])).
Proof.
  intros Hf.
  unfold deleteData, try_catch, bind, MeetingHistory_findByIdAndUpdate.
  by rewrite (store_call_fail _ _ _ _ _ Hf).
Qed.

(** C5. Soft delete is idempotent: when the store is reachable for both
    calls, deleting the same identity twice answers 200 both times, a
    record with that identity is still there with [deleted] true, and the
    second call leaves the collection as the first one left it. *)
Theorem deleteData_twice (req : request) (w : world) :
  calls_ok 2 (faults w) = true →
  let i := req_params_id req in
  let first := deleteData req w in
  let second := deleteData req first.2 in
  (∃ p, first.1 = Ok (Response 200 p)) ∧
  (∃ p, second.1 = Ok (Response 200 p)) ∧
  (is_Some (Meetings w !! i) → is_Some (Meetings second.2 !! i)) ∧
  (∀ d, Meetings second.2 !! i = Some d →
        doc_get "deleted" d = Some (VBool true)) ∧
  Meetings second.2 = Meetings first.2.
Proof.
  intros Hok i first second.
  assert (H1 : calls_ok 1 (faults w) = true) by (by eapply calls_ok_1).
  assert (H2 : calls_ok 1 (faults first.2) = true).
  { unfold first. rewrite (deleteData_ok _ _ H1).
    by apply (calls_ok_tail 1). }
  assert (Hm1 : Meetings first.2 =
                alter (doc_set "deleted" (VBool true)) i (Meetings w)).
  { unfold first. by rewrite (deleteData_ok _ _ H1). }
  assert (Hm2 : Meetings second.2 =
                alter (doc_set "deleted" (VBool true)) i (Meetings first.2)).
  { unfold second. by rewrite (deleteData_ok _ _ H2). }
  assert (Hsame : Meetings second.2 = Meetings first.2).
  { rewrite Hm2, Hm1. apply map_eq. intros j.
    destruct (decide (i = j)) as [<-|Hne].
    - rewrite !lookup_alter_eq. destruct (Meetings w !! i); simpl; [|done].
      by rewrite doc_set_set.
    - by rewrite !lookup_alter_ne. }
  split; [|split; [|split; [|split]]].
  - unfold first. rewrite (deleteData_ok _ _ H1). eauto.
  - unfold second. rewrite (deleteData_ok _ _ H2). eauto.
  - intros [d Hd]. rewrite Hsame, Hm1, lookup_alter_eq, Hd. simpl. eauto.
  - intros d. rewrite Hsame, Hm1, lookup_alter_eq.
    destruct (Meetings w !! i) as [d0|]; simpl; [|done].
    intros [= <-]. apply doc_get_set_eq.
  - done.
Qed.

(** C7. Soft delete of one identity answers 200 with the confirmation
    message and the state of the record before the update, whether or not
    a record has that identity: for an identity without a record the result
    is null and the collection is unchanged.  No outcome of the handler is
    a 404. *)
Theorem deleteData_missing_id (req : request) (w : world) :
  let i := req_params_id req in
  let out := deleteData req w in
  (calls_ok 1 (faults w) = true →
   out.1 = Ok (Response 200
                 (VObj [("message", deleted_msg);
                        ("result", doc_or_null (with_id i <$> Meetings w !! i))]))) ∧
  (calls_ok 1 (faults w) = true → Meetings w !! i = None →
   out.1 = Ok (Response 200
                 (VObj [("message", deleted_msg); ("result", VNull)])) ∧
   Meetings out.2 = Meetings w) ∧
  (∃ r, out.1 = Ok r ∧ (status r = 200 ∨ status r = 400)%Z).
Proof.
  intros i out. unfold out. split; [|split].
  - intros Hok. by rewrite (deleteData_ok _ _ Hok).
  - intros Hok Hnone. rewrite (deleteData_ok _ _ Hok). simpl.
    fold i. rewrite Hnone. split; [done|].
    apply map_eq. intros j. destruct (decide (i = j)) as [<-|Hne].
    + by rewrite lookup_alter_eq, Hnone.
    + by rewrite lookup_alter_ne.
  - destruct (faults w) as [|[e|] fs] eqn:Hf.
    + rewrite deleteData_ok by (by rewrite Hf). simpl. eauto.
    + rewrite (deleteData_fail _ _ _ _ Hf). simpl. eauto.
    + rewrite deleteData_ok by (by rewrite Hf). simpl. eauto.
Qed.

(** ** Soft delete of many meetings *)

(** C8. Soft delete of many: with an array of identities in the body and
    the store reachable, a stored record has [deleted] set to true when its
    identity is in the array and is left as it was otherwise; identities
    without a record change nothing and raise no error; the answer is 200
    with the confirmation message and the summary of the bulk update: the
    number of records matched and the number of those that were not
    already deleted. *)
Theorem deleteMany_selected (ids : list oid) (req : request) (w : world) :
  req_body req = VArr (VOid <$> ids) →
  calls_ok 1 (faults w) = true →
  let out := deleteMany req w in
  let targets :=
    List.filter (λ kd, bool_decide (kd.1 ∈ ids)) (map_to_list (Meetings w)) in
  (∀ i, Meetings out.2 !! i =
          if bool_decide (i ∈ ids)
          then doc_set "deleted" (VBool true) <$> Meetings w !! i
          else Meetings w !! i) ∧
  out.1 =
    Ok (Response 200
          (VObj [("message", VStr "Meetings deleted successfully");
                 ("result",
                  update_summary (length targets)
                    (length (List.filter (λ kd, negb (is_deleted kd.2))
                               targets)))])).
Proof.
  intros Hbody Hok out targets. unfold out, targets.
  unfold deleteMany, try_catch, bind, MeetingHistory_updateMany.
  rewrite Hbody, (store_call_ok _ _ _ Hok), compile_in.
  cbv zeta. cbn [fst snd ret].
  change (Meetings (issue _ w)) with (Meetings w).
  split.
  - intros i. unfold set_Meetings. cbn [Meetings].
    rewrite map_lookup_imap.
    destruct (Meetings w !! i) as [d|];
      cbn [mbind option_bind fmap option_fmap option_map].
    + by rewrite matches_in; destruct (bool_decide (i ∈ ids)).
    + by destruct (bool_decide (i ∈ ids)).
  - do 4 f_equal.
    rewrite (filter_ext (λ kd, matches [("_id", CIn (VOid <$> ids))]
                                 (with_id kd.1 kd.2))
               (λ kd, bool_decide (kd.1 ∈ ids)))
      by (intros [k d]; apply matches_in).
    do 4 f_equal. apply filter_ext. intros [k d]. apply set_deleted_changes.
Qed.

(** ** The delete handlers and the actor *)

(** C9. The two delete handlers check neither creator nor role: two
    requests that differ only in the authenticated actor have the same
    outcome (response and resulting world), and the response and the
    resulting meetings do not depend on the User collection, where the
    roles live. *)
Theorem delete_ignores_actor (a b i : oid) (q : doc) (body : value)
    (us : gmap oid doc) (w : world) :
  deleteData (Request a i q body) w = deleteData (Request b i q body) w ∧
  deleteMany (Request a i q body) w = deleteMany (Request b i q body) w ∧
  (deleteData (Request a i q body) (set_Users us w)).1 =
    (deleteData (Request a i q body) w).1 ∧
  Meetings (deleteData (Request a i q body) (set_Users us w)).2 =
    Meetings (deleteData (Request a i q body) w).2 ∧
  (deleteMany (Request a i q body) (set_Users us w)).1 =
    (deleteMany (Request a i q body) w).1 ∧
  Meetings (deleteMany (Request a i q body) (set_Users us w)).2 =
    Meetings (deleteMany (Request a i q body) w).2.
Proof.
  split; [reflexivity|]. split; [reflexivity|].
  unfold deleteData, deleteMany, try_catch, bind,
    MeetingHistory_findByIdAndUpdate, MeetingHistory_updateMany, store_call.
  change (faults (set_Users us w)) with (faults w).
  destruct (head (faults w)) as [[e|]|]; cbn [fst snd req_params_id req_body];
    try (repeat split; reflexivity).
  all: destruct (compile_filter _); repeat split; reflexivity.
Qed.

(** ** View after a soft delete *)

(** With the store reachable, [view] answers after the soft delete of a
    meeting exactly what it answered before: the flag is never read. *)
Lemma view_ignores_soft_delete (req : request) (w : world) :
  calls_ok 3 (faults w) = true →
  (view req (deleteData req w).2).1 = (view req w).1.
Proof.
  intros Hok.
  assert (H1 : calls_ok 1 (faults w) = true) by (by eapply calls_ok_1).
  rewrite (deleteData_ok _ _ H1). cbn [snd].
  set (i := req_params_id req).
  set (w1 := set_Meetings _ _).
  assert (Hf1 : faults w1 = tail (faults w)) by done.
  assert (Hm1 : Meetings w1 !! i =
                doc_set "deleted" (VBool true) <$> Meetings w !! i).
  { unfold w1. cbn [Meetings set_Meetings]. apply lookup_alter_eq. }
  destruct (Meetings w !! i) as [d|] eqn:Hd.
  - rewrite (view_found req w1 _ Hm1), (view_found req w d Hd H1).
    2: { rewrite Hf1. by apply (calls_ok_tail 2), calls_ok_1 in Hok. }
    fold i. rewrite Hf1.
    change (collection w1) with (collection w).
    rewrite !view_pipeline_run, Hm1, Hd. cbn [fmap option_fmap option_map].
    rewrite <- (view_joins_unset _ [with_id i (doc_set _ _ d)]).
    rewrite <- (view_joins_unset _ [with_id i d]).
    change (doc_unset "deleted"
              <$> [with_id i (doc_set "deleted" (VBool true) d)])
      with [with_id i (doc_unset "deleted" (doc_set "deleted" (VBool true) d))].
    rewrite doc_unset_set_eq.
    change (doc_unset "deleted" <$> [with_id i d])
      with [with_id i (doc_unset "deleted" d)].
    by destruct (faults w) as [|[e|] [|[e'|] [|[e''|] fs]]].
  - rewrite (view_absent req w1 Hm1), (view_absent req w Hd), Hf1.
    by destruct (faults w) as [|[e|] [|[e'|] fs]].
Qed.

(** ** The theorems at the sample data *)

Lemma view_missing_id_witness :
  let w := Sample.empty_world in
  let req := Sample.req_of 1 5 [] VNull in
  Meetings w !! 5%N = None ∧
  (view req w).1 =
    Ok (Response 404 (VObj [("message", VStr "No meeting found.")])).
Proof.
  intros w req.
  assert (Hnone : Meetings w !! 5%N = None) by reflexivity.
  split; [exact Hnone|]. exact (view_missing_id req w Hnone).
Defined.

Lemma deleteData_twice_witness :
  let w := Sample.after_add Sample.solo_body in
  let req := Sample.req_of 2 100 [] VNull in
  calls_ok 2 (faults w) = true ∧
  is_Some (Meetings w !! 100%N) ∧
  ∀ d, Meetings (deleteData req (deleteData req w).2).2 !! 100%N = Some d →
       doc_get "deleted" d = Some (VBool true).
Proof.
  intros w req.
  assert (Hok : calls_ok 2 (faults w) = true) by reflexivity.
  split; [exact Hok|]. split; [by eexists|].
  exact (proj1 (proj2 (proj2 (proj2 (deleteData_twice req w Hok))))).
Defined.

Lemma deleteData_missing_id_witness :
  let w := Sample.empty_world in
  let req := Sample.req_of 1 5 [] VNull in
  calls_ok 1 (faults w) = true ∧
  Meetings w !! 5%N = None ∧
  (deleteData req w).1 =
    Ok (Response 200 (VObj [("message", deleted_msg); ("result", VNull)])) ∧
  Meetings (deleteData req w).2 = Meetings w.
Proof.
  intros w req.
  assert (Hok : calls_ok 1 (faults w) = true) by reflexivity.
  assert (Hnone : Meetings w !! 5%N = None) by reflexivity.
  split; [exact Hok|]. split; [exact Hnone|].
  exact (proj1 (proj2 (deleteData_missing_id req w)) Hok Hnone).
Defined.

Lemma deleteMany_selected_witness :
  let w := Sample.two_meetings in
  let ids := [100%N; 7%N; 101%N] in
  let req := Sample.req_of 2 0 [] (VArr [VOid 100; VOid 7; VOid 101]) in
  req_body req = VArr (VOid <$> ids) ∧
  calls_ok 1 (faults w) = true ∧
  is_deleted <$> Meetings (deleteMany req w).2 !! 100%N = Some true ∧
  is_deleted <$> Meetings (deleteMany req w).2 !! 101%N = Some true ∧
  Meetings (deleteMany req w).2 !! 7%N = None ∧
  (deleteMany req w).1 =
    Ok (Response 200
          (VObj [("message", VStr "Meetings deleted successfully");
                 ("result", update_summary 2 2)])).
Proof.
  intros w ids req.
  assert (Hbody : req_body req = VArr (VOid <$> ids)) by reflexivity.
  assert (Hok : calls_ok 1 (faults w) = true) by reflexivity.
  split; [exact Hbody|]. split; [exact Hok|].
  destruct (deleteMany_selected ids req w Hbody Hok) as [Hm Hresp].
  rewrite (Hm 100%N), (Hm 101%N), (Hm 7%N), Hresp.
  repeat split; reflexivity.
Defined.

(** ** Fields through a pipeline *)

Lemma doc_get_unset_eq (k : string) (d : doc) :
  doc_get k (doc_unset k d) = None.
Proof.
  induction d as [|[k' v] d IH]; simpl; [done|].
  destruct (String.eqb k k') eqn:E; simpl; [done|]. by rewrite E.
Qed.

Lemma doc_get_project_out (k : string) (fs : list string) (d : doc) :
  existsb (String.eqb k) fs = false → doc_get k (project fs d) = None.
Proof.
  intros Hk. unfold project. induction d as [|[k' v] d IH]; simpl; [done|].
  destruct (existsb (String.eqb k') fs) eqn:Hk'; simpl; [|done].
  destruct (String.eqb k k') eqn:E; [|done].
  apply String.eqb_eq in E as ->. congruence.
Qed.

Lemma keys_project (fs : list string) (d : doc) (k : string) :
  k ∈ keys (project fs d) → k ∈ fs.
Proof.
  unfold keys, project. intros Hin.
  apply list_elem_of_fmap in Hin as ([k' v] & -> & Hin).
  apply list_elem_of_In, filter_In in Hin as [_ Hk]. simpl in Hk.
  apply existsb_exists in Hk as (x & Hx & E).
  apply String.eqb_eq in E as ->. by apply list_elem_of_In.
Qed.

Lemma map_result_image {A B} (f : A → result B) (l : list A) (l' : list B)
    (x : A) :
  map_result f l = Ok l' → x ∈ l → ∃ y, y ∈ l' ∧ f x = Ok y.
Proof.
  revert l'. induction l as [|a l IH]; intros l' Hm Hin.
  - by apply elem_of_nil in Hin.
  - simpl in Hm. destruct (f a) as [b|] eqn:Ha; [|by destruct (map_result f l)].
    destruct (map_result f l) as [ys|]; [|done]. injection Hm as <-.
    apply elem_of_cons in Hin as [->|Hin].
    + exists b. split; [by left|done].
    + destruct (IH ys eq_refl Hin) as (y & Hy & Hf).
      exists y. split; [by right|done].
Qed.

(** Backwards: a row that leaves a stage comes from a document that
    entered it, and has its fields wherever the stage keeps them. *)
Lemma run_stage_origin (coll : string → list doc) (s : stage)
    (ds rs : list doc) (r : doc) :
  run_stage coll s ds = Ok rs → r ∈ rs →
  ∃ x, x ∈ ds ∧ ∀ k, stage_keeps k s → doc_get k r = doc_get k x.
Proof.
  destruct s as [q|from lf ff as_|path b|fs|fs]; cbn [stage_keeps run_stage];
    intros Hrun Hr.
  - destruct (compile_filter q) as [fl|]; [|done]. injection Hrun as <-.
    apply list_elem_of_In, filter_In in Hr as [Hr _].
    exists r. split; [by apply list_elem_of_In|done].
  - injection Hrun as <-. apply list_elem_of_fmap in Hr as (x & -> & Hx).
    exists x. split; [done|]. intros k Hk. by apply doc_get_set_ne.
  - injection Hrun as <-. apply list_elem_of_bind in Hr as (x & Hr & Hx).
    exists x. split; [done|]. intros k Hk. by eapply unwind_keeps.
  - destruct (map_result_elem _ _ _ _ Hrun Hr) as (x & Hx & Hf).
    exists x. split; [done|]. intros k Hk. by eapply add_fields_keeps.
  - injection Hrun as <-. apply list_elem_of_fmap in Hr as (x & -> & Hx).
    exists x. split; [done|]. intros k Hk. by apply doc_get_project.
Qed.

Lemma run_pipeline_origin (coll : string → list doc) (p : list stage)
    (ds rs : list doc) (r : doc) :
  run_pipeline coll p ds = Ok rs → r ∈ rs →
  ∃ x, x ∈ ds ∧ ∀ k, Forall (stage_keeps k) p → doc_get k r = doc_get k x.
Proof.
  revert ds. induction p as [|s p IH]; intros ds Hrun Hr.
  - injection Hrun as <-. eauto.
  - rewrite run_pipeline_cons in Hrun.
    destruct (run_stage coll s ds) as [ds'|] eqn:Hs'; [|done].
    destruct (IH ds' Hrun Hr) as (y & Hy & Hky).
    destruct (run_stage_origin _ _ _ _ _ Hs' Hy) as (x & Hx & Hkx).
    exists x. split; [done|]. intros k Hk. apply Forall_cons in Hk as [Hs Hp].
    by rewrite Hky, Hkx.
Qed.

(** Forwards: a document that enters a stage that drops none has a row
    among those that leave, with its fields wherever the stage keeps
    them. *)
Lemma run_stage_reaches (coll : string → list doc) (s : stage)
    (ds rs : list doc) (x : doc) :
  stage_passes s →
  run_stage coll s ds = Ok rs → x ∈ ds →
  ∃ r, r ∈ rs ∧ ∀ k, stage_keeps k s → doc_get k r = doc_get k x.
Proof.
  destruct s as [q|from lf ff as_|path b|fs|fs];
    cbn [stage_keeps stage_passes run_stage]; intros Hp Hrun Hx; [done|..].
  - injection Hrun as <-. eexists. split.
    + apply list_elem_of_fmap. eauto.
    + intros k Hk. by apply doc_get_set_ne.
  - injection Hrun as <-. subst b.
    destruct (unwind_preserve_nonempty path x) as [r Hr].
    exists r. split; [|intros k Hk; by eapply unwind_keeps].
    apply list_elem_of_bind. eauto.
  - destruct (map_result_image _ _ _ _ Hrun Hx) as (r & Hr & Hf).
    exists r. split; [done|]. intros k Hk. by eapply add_fields_keeps.
  - injection Hrun as <-. eexists. split.
    + apply list_elem_of_fmap. eauto.
    + intros k Hk. by apply doc_get_project.
Qed.

Lemma run_pipeline_reaches (coll : string → list doc) (p : list stage)
    (ds rs : list doc) (x : doc) :
  Forall stage_passes p →
  run_pipeline coll p ds = Ok rs → x ∈ ds →
  ∃ r, r ∈ rs ∧ ∀ k, Forall (stage_keeps k) p → doc_get k r = doc_get k x.
Proof.
  intros Hp. revert ds x.
  induction Hp as [|s p Hs _ IH]; intros ds x Hrun Hx.
  - injection Hrun as <-. eauto.
  - rewrite run_pipeline_cons in Hrun.
    destruct (run_stage coll s ds) as [ds'|] eqn:Hs'; [|done].
    destruct (run_stage_reaches _ _ _ _ _ Hs Hs' Hx) as (y & Hy & Hky).
    destruct (IH ds' y Hrun Hy) as (r & Hr & Hkr).
    exists r. split; [done|]. intros k Hk. apply Forall_cons in Hk as [Hk Hkp].
    by rewrite Hkr, Hky.
Qed.

(** The rows of a pipeline that ends in a projection have no other field
    than the projected ones. *)
Lemma run_pipeline_projected (coll : string → list doc) (p : list stage)
    (fs : list string) (ds rs : list doc) (r : doc) (k : string) :
  run_pipeline coll (p ++ [Project fs]) ds = Ok rs →
  r ∈ rs → k ∈ keys r → k ∈ fs.
Proof.
  rewrite run_pipeline_app.
  destruct (run_pipeline coll p ds) as [rs'|]; [|done].
  cbn [run_stage]. intros [= <-] Hr Hk.
  apply list_elem_of_fmap in Hr as (x & -> & _). by eapply keys_project.
Qed.

(** ** What the list answers *)

Lemma index_pipeline_joins (q : doc) : index_pipeline q = Match q :: index_joins.
Proof. reflexivity. Qed.

Lemma docs_of_elem (m : gmap oid doc) (x : doc) :
  x ∈ docs_of m ↔ ∃ i d, m !! i = Some d ∧ x = with_id i d.
Proof.
  unfold docs_of. rewrite list_elem_of_fmap. split.
  - intros ([i d] & -> & Hin). apply elem_of_map_to_list in Hin. eauto.
  - intros (i & d & Hd & ->). exists (i, d).
    split; [done|]. by apply elem_of_map_to_list.
Qed.

(** A 200 of [index] is the outcome of the aggregation on the query built
    from the request. *)
Lemma index_200_rows (req : request) (w : world) (rows : list value) :
  (index req w).1 = Ok (Response 200 (VArr rows)) →
  let uid := req_user_userId req in
  let q := index_query req (with_id uid <$> Users w !! uid) in
  ∃ fl rs,
    rows = VObj <$> rs ∧ compile_filter q = Ok fl ∧
    run_pipeline (collection w) index_joins
      (List.filter (matches fl) (docs_of (Meetings w))) = Ok rs.
Proof.
  intros Hresp uid q. revert Hresp.
  unfold index, bind, User_findById, store_call.
  destruct (head (faults w)) as [[e|]|]; [done|..].
  all: fold uid; change (Users (issue (CallFindById uid) w)) with (Users w).
  all: fold q; unfold try_catch, bind; rewrite aggregate_run.
  all: change (collection (issue (CallFindById uid) w)) with (collection w).
  all: change (Meetings (issue (CallFindById uid) w)) with (Meetings w).
  all: destruct (head (faults _)) as [[e|]|]; [done|..].
  all: rewrite index_pipeline_joins, run_pipeline_cons; cbn [run_stage].
  all: destruct (compile_filter q) as [fl|]; [|done].
  all: destruct (run_pipeline _ _ _) as [rs|] eqn:Hrs; [|done].
  all: intros [= <-]; eauto.
Qed.

Lemma string_app_assoc (a b c : string) : ((a ++ b) ++ c = a ++ b ++ c)%string.
Proof.
  induction a as [|x a IH]; [done|].
  change (String x ((a ++ b) ++ c) = String x (a ++ b ++ c))%string.
  by rewrite IH.
Qed.

(** The value [$addFields] gives [createdByName] after the creator join
    found the users [us]. *)
Lemma createdByName_plain_value (x r2 r1 : doc) (us : list doc) :
  r2 ∈ unwind "createdByData" true
         (doc_set "createdByData" (VArr (VObj <$> us)) x) →
  add_fields [("createdByName", createdByName_plain)] r2 r2 = Ok r1 →
  (us = [] ∧ doc_get "createdByName" r1 = Some VNull) ∨
  (∃ u, u ∈ us ∧
        doc_get "createdByName" r1 =
          match doc_get "firstName" u, doc_get "lastName" u with
          | Some (VStr f), Some (VStr l) => Some (VStr (f ++ " " ++ l))
          | _, _ => Some VNull
          end).
Proof.
  unfold unwind. rewrite doc_get_set_eq. destruct us as [|u0 us].
  - intros Hr2 Hadd. apply list_elem_of_singleton in Hr2 as ->. left.
    split; [done|]. revert Hadd. cbn [add_fields]. unfold createdByName_plain.
    simpl. rewrite doc_get_unset_eq. intros [= <-]. apply doc_get_set_eq.
  - intros Hr2 Hadd. right.
    apply list_elem_of_fmap in Hr2 as (y & -> & Hy).
    apply list_elem_of_fmap in Hy as (u & -> & Hu).
    exists u. split; [done|]. revert Hadd.
    cbn [add_fields]. unfold createdByName_plain. simpl.
    rewrite !doc_set_set, !doc_get_set_eq.
    destruct (doc_get "firstName" u) as [[| | |f| | | |]|]; try done;
      try (intros [= <-]; apply doc_get_set_eq).
    destruct (doc_get "lastName" u) as [[| | |l| | | |]|]; try done;
      intros [= <-]; rewrite doc_get_set_eq; try done.
    by rewrite string_app_assoc.
Qed.

Lemma index_joins_row (coll : string → list doc) (ds rs : list doc) (r : doc) :
  run_pipeline coll index_joins ds = Ok rs → r ∈ rs →
  ∃ x r2 r1,
    x ∈ ds ∧
    r2 ∈ unwind "createdByData" true
           (doc_set "createdByData"
              (VArr (VObj <$> List.filter
                       (lookup_matches (doc_get creator_field x) "_id")
                       (coll "User")))
              x) ∧
    add_fields [("createdByName", createdByName_plain)] r2 r2 = Ok r1 ∧
    r = project index_fields r1.
Proof.
  unfold run_pipeline, index_joins. cbn [run_stage].
  destruct (map_result _ _) as [added|] eqn:Hadd; [|done].
  intros [= <-] Hr.
  apply list_elem_of_fmap in Hr as (r1 & -> & Hr1).
  destruct (map_result_elem _ _ _ _ Hadd Hr1) as (r2 & Hr2 & Hf).
  apply list_elem_of_bind in Hr2 as (r3 & Hr2 & Hr3).
  apply list_elem_of_fmap in Hr3 as (x & -> & Hx).
  exists x, r2, r1. eauto.
Qed.

(** Where a row of a 200 of [index] comes from: a stored meeting that
    passes the filter, joined with its creators, unwound, named and
    projected. *)
Lemma index_row_origin (req : request) (w : world) (rows : list value)
    (v : value) :
  (index req w).1 = Ok (Response 200 (VArr rows)) → v ∈ rows →
  let uid := req_user_userId req in
  let q := index_query req (with_id uid <$> Users w !! uid) in
  ∃ fl i d r2 r1,
    compile_filter q = Ok fl ∧ Meetings w !! i = Some d ∧
    matches fl (with_id i d) = true ∧
    r2 ∈ unwind "createdByData" true
           (doc_set "createdByData" (VArr (VObj <$> creators w d))
              (with_id i d)) ∧
    add_fields [("createdByName", createdByName_plain)] r2 r2 = Ok r1 ∧
    v = VObj (project index_fields r1).
Proof.
  intros Hresp Hv uid q.
  destruct (index_200_rows req w rows Hresp) as (fl & rs & -> & Hfl & Hrun).
  apply list_elem_of_fmap in Hv as (r & -> & Hr).
  destruct (index_joins_row _ _ _ _ Hrun Hr) as (x & r2 & r1 & Hx & H2 & H1 & ->).
  apply list_elem_of_In, filter_In in Hx as [Hx Hm].
  apply list_elem_of_In, docs_of_elem in Hx as (i & d & Hd & ->).
  exists fl, i, d, r2, r1. repeat split; done.
Qed.

Lemma index_row_field (k : string) (i : oid) (d r2 r1 : doc) (us : list doc) :
  k ≠ "createdByData" → k ≠ "createdByName" →
  existsb (String.eqb k) index_fields = true →
  r2 ∈ unwind "createdByData" true
         (doc_set "createdByData" (VArr (VObj <$> us)) (with_id i d)) →
  add_fields [("createdByName", createdByName_plain)] r2 r2 = Ok r1 →
  doc_get k (project index_fields r1) = doc_get k (with_id i d).
Proof.
  intros H1 H2 Hk Hr2 Hadd. rewrite doc_get_project by done.
  rewrite (add_fields_keeps [("createdByName", createdByName_plain)] k r2 r2 r1)
    by (done || (constructor; [by simpl|constructor])).
  rewrite (unwind_keeps "createdByData" k _ _ _ (ltac:(done)) Hr2).
  by rewrite doc_get_set_ne.
Qed.

(** X3. A row of the list carries only the five projected fields, and its
    identity, agenda, date and timestamp are those of a stored meeting. *)
Theorem index_rows_are_projections (req : request) (w : world)
    (rows : list value) (v : value) :
  (index req w).1 = Ok (Response 200 (VArr rows)) → v ∈ rows →
  ∃ row i d,
    v = VObj row ∧ Meetings w !! i = Some d ∧
    doc_get "_id" row = Some (VOid i) ∧
    doc_get "agenda" row = doc_get "agenda" d ∧
    doc_get "dateTime" row = doc_get "dateTime" d ∧
    doc_get "timestamp" row = doc_get "timestamp" d ∧
    (∀ k, k ∈ keys row → k ∈ index_fields).
Proof.
  intros Hresp Hv.
  destruct (index_row_origin req w rows v Hresp Hv)
    as (fl & i & d & r2 & r1 & _ & Hd & _ & Hr2 & Hadd & ->).
  exists (project index_fields r1), i, d.
  split; [done|]. split; [done|].
  rewrite !(λ k H1 H2 Hk, index_row_field k i d r2 r1 _ H1 H2 Hk Hr2 Hadd)
    by done.
  repeat split; try done. intros k. apply keys_project.
Qed.

Lemma index_rows_are_projections_witness :
  let w := Sample.after_add Sample.sync_body in
  let req := Sample.req_of 1 0 [] VNull in
  let rows := [VObj (sample_row 100)] in
  (index req w).1 = Ok (Response 200 (VArr rows)) ∧
  ∃ row i d,
    VObj (sample_row 100) = VObj row ∧ Meetings w !! i = Some d ∧
    doc_get "_id" row = Some (VOid i) ∧
    doc_get "agenda" row = doc_get "agenda" d ∧
    doc_get "dateTime" row = doc_get "dateTime" d ∧
    doc_get "timestamp" row = doc_get "timestamp" d ∧
    (∀ k, k ∈ keys row → k ∈ index_fields).
Proof.
  intros w req rows.
  assert (H : (index req w).1 = Ok (Response 200 (VArr rows))) by reflexivity.
  split; [exact H|].
  apply (index_rows_are_projections req w rows (VObj (sample_row 100)) H).
  apply list_elem_of_here.
Defined.

(** X4. The creator name of a row: null when the creator join of the
    meeting finds no user (the row is kept), and otherwise built from a
    user the join found: first name, a space, last name, or null when one
    of the two is null or missing. *)
Theorem index_createdByName (req : request) (w : world)
    (rows : list value) (v : value) :
  (index req w).1 = Ok (Response 200 (VArr rows)) → v ∈ rows →
  ∃ row i d,
    v = VObj row ∧ Meetings w !! i = Some d ∧
    doc_get "_id" row = Some (VOid i) ∧
    ((creators w d = [] ∧ doc_get "createdByName" row = Some VNull) ∨
     (∃ u, u ∈ creators w d ∧
           doc_get "createdByName" row =
             match doc_get "firstName" u, doc_get "lastName" u with
             | Some (VStr f), Some (VStr l) => Some (VStr (f ++ " " ++ l))
             | _, _ => Some VNull
             end)).
Proof.
  intros Hresp Hv.
  destruct (index_row_origin req w rows v Hresp Hv)
    as (fl & i & d & r2 & r1 & _ & Hd & _ & Hr2 & Hadd & ->).
  exists (project index_fields r1), i, d.
  split; [done|]. split; [done|].
  rewrite (index_row_field "_id" i d r2 r1 _) by done.
  split; [done|]. rewrite doc_get_project by done.
  exact (createdByName_plain_value _ _ _ _ Hr2 Hadd).
Qed.

Lemma index_createdByName_witness :
  let w := Sample.after_add Sample.sync_body in
  let req := Sample.req_of 1 0 [] VNull in
  let rows := [VObj (sample_row 100)] in
  (index req w).1 = Ok (Response 200 (VArr rows)) ∧
  ∃ row i d,
    VObj (sample_row 100) = VObj row ∧ Meetings w !! i = Some d ∧
    doc_get "_id" row = Some (VOid i) ∧
    ((creators w d = [] ∧ doc_get "createdByName" row = Some VNull) ∨
     (∃ u, u ∈ creators w d ∧
           doc_get "createdByName" row =
             match doc_get "firstName" u, doc_get "lastName" u with
             | Some (VStr f), Some (VStr l) => Some (VStr (f ++ " " ++ l))
             | _, _ => Some VNull
             end)).
Proof.
  intros w req rows.
  assert (H : (index req w).1 = Ok (Response 200 (VArr rows))) by reflexivity.
  split; [exact H|].
  apply (index_createdByName req w rows (VObj (sample_row 100)) H).
  apply list_elem_of_here.
Defined.

Lemma index_joins_pass : Forall stage_passes index_joins.
Proof. repeat constructor. Qed.

Lemma index_joins_keep_id : Forall (stage_keeps "_id") index_joins.
Proof. unfold index_joins. repeat constructor; done. Qed.

(** X5. The list is complete: when [index] answers 200, every stored
    meeting that satisfies the filter built from the request has a row with
    its identity. *)
Theorem index_lists_every_match (req : request) (w : world)
    (rows : list value) (fl : list (string * cond)) (i : oid) (d : doc) :
  let uid := req_user_userId req in
  (index req w).1 = Ok (Response 200 (VArr rows)) →
  compile_filter (index_query req (with_id uid <$> Users w !! uid)) = Ok fl →
  Meetings w !! i = Some d →
  matches fl (with_id i d) = true →
  ∃ row, VObj row ∈ rows ∧ doc_get "_id" row = Some (VOid i).
Proof.
  intros uid Hresp Hfl Hd Hm.
  destruct (index_200_rows req w rows Hresp) as (fl' & rs & -> & Hfl' & Hrun).
  fold uid in Hfl'. rewrite Hfl in Hfl'. injection Hfl' as <-.
  destruct (run_pipeline_reaches _ _ _ _ (with_id i d) index_joins_pass Hrun)
    as (r & Hr & Hk).
  - apply list_elem_of_In, filter_In. split; [|done].
    apply list_elem_of_In, docs_of_elem. eauto.
  - exists r. split; [by apply list_elem_of_fmap_2|].
    by rewrite (Hk "_id" index_joins_keep_id).
Qed.

Lemma index_lists_every_match_witness :
  let w := Sample.two_meetings in
  let req := Sample.req_of 1 0 [] VNull in
  let rows := [VObj (sample_row 100); VObj (sample_row 101)] in
  let fl := [("deleted", CEq (VBool false)); (creator_field, CEq (VOid 1))] in
  let d := sample_stored [] false in
  (index req w).1 = Ok (Response 200 (VArr rows)) ∧
  compile_filter (index_query req (with_id 1%N <$> Users w !! 1%N)) = Ok fl ∧
  Meetings w !! 101%N = Some d ∧
  matches fl (with_id 101%N d) = true ∧
  ∃ row, VObj row ∈ rows ∧ doc_get "_id" row = Some (VOid 101).
Proof.
  intros w req rows fl d.
  assert (H : (index req w).1 = Ok (Response 200 (VArr rows))) by reflexivity.
  assert (Hfl : compile_filter
                  (index_query req (with_id 1%N <$> Users w !! 1%N)) = Ok fl)
    by reflexivity.
  assert (Hd : Meetings w !! 101%N = Some d) by reflexivity.
  assert (Hm : matches fl (with_id 101%N d) = true) by reflexivity.
  split; [exact H|]. split; [exact Hfl|]. split; [exact Hd|].
  split; [exact Hm|].
  exact (index_lists_every_match req w rows fl 101%N d H Hfl Hd Hm).
Defined.

(** X6. When the user lookup has answered and the aggregation fails, in the
    store or in the pipeline, [index] answers 500 with the fixed text
    "Internal Server Error": the message of the failure goes to the
    diagnostic channel and not to the caller, and the meetings are
    untouched. *)
Theorem index_aggregation_failure (req : request) (w : world) (e : string) :
  let uid := req_user_userId req in
  let q := index_query req (with_id uid <$> Users w !! uid) in
  calls_ok 1 (faults w) = true →
  head (tail (faults w)) = Some (Some e) ∨
  (calls_ok 2 (faults w) = true ∧
   run_pipeline (collection w) (index_pipeline q) (docs_of (Meetings w)) =
     Throw e) →
  (index req w).1 = Ok (Response 500 (VStr "Internal Server Error")) ∧
  console (index req w).2 =
    (console w ++ [("Error fetching meeting history: " ++ e)%string])%list ∧
  Meetings (index req w).2 = Meetings w.
Proof.
  intros uid q Hok Hfail.
  unfold index, bind, User_findById. rewrite (store_call_ok _ _ _ Hok).
  fold uid. change (Users (issue (CallFindById uid) w)) with (Users w).
  fold q. unfold try_catch, bind. rewrite aggregate_run.
  change (faults (issue (CallFindById uid) w)) with (tail (faults w)).
  change (collection (issue (CallFindById uid) w)) with (collection w).
  change (Meetings (issue (CallFindById uid) w)) with (Meetings w).
  destruct Hfail as [-> | [Hok2 ->]]; [done|].
  by destruct (faults w) as [|[e1|] [|[e2|] fs]].
Qed.

Lemma index_aggregation_failure_witness :
  let w := set_faults [None; Some "connection lost"] Sample.empty_world in
  let req := Sample.req_of 1 0 [] VNull in
  calls_ok 1 (faults w) = true ∧
  head (tail (faults w)) = Some (Some "connection lost") ∧
  (index req w).1 = Ok (Response 500 (VStr "Internal Server Error")) ∧
  console (index req w).2 =
    ["Error fetching meeting history: connection lost"].
Proof.
  intros w req.
  assert (Hok : calls_ok 1 (faults w) = true) by reflexivity.
  assert (Hf : head (tail (faults w)) = Some (Some "connection lost"))
    by reflexivity.
  split; [exact Hok|]. split; [exact Hf|].
  destruct (index_aggregation_failure req w "connection lost" Hok (or_introl Hf))
    as (Hr & Hc & _).
  split; [exact Hr|exact Hc].
Defined.

(** X7. The user lookup of [index] is outside its [try]: when it fails the
    handler rejects with the failure, no response is built, the aggregation
    is not called, and nothing is logged. *)
Theorem index_lookup_failure_rejects (req : request) (w : world)
    (e : string) (fs : list (option string)) :
  faults w = Some e :: fs →
  (index req w).1 = Throw e ∧
  calls (index req w).2 =
    (calls w ++ [CallFindById (req_user_userId req)])%list ∧
  console (index req w).2 = console w ∧
  Meetings (index req w).2 = Meetings w.
Proof.
  intros Hf. unfold index, bind, User_findById.
  by rewrite (store_call_fail _ _ _ _ _ Hf).
Qed.

Lemma index_lookup_failure_rejects_witness :
  let w := set_faults [Some "connection lost"] Sample.empty_world in
  let req := Sample.req_of 1 0 [] VNull in
  faults w = [Some "connection lost"] ∧
  (index req w).1 = Throw "connection lost" ∧
  calls (index req w).2 = [CallFindById 1].
Proof.
  intros w req.
  assert (Hf : faults w = [Some "connection lost"]) by reflexivity.
  split; [exact Hf|].
  destruct (index_lookup_failure_rejects req w _ _ Hf) as (Hr & Hc & _).
  split; [exact Hr|exact Hc].
Defined.

(** ** What the view answers *)

Lemma view_joins_pass : Forall stage_passes view_joins.
Proof. repeat constructor. Qed.

Lemma view_joins_keep (k : string) :
  k ∈ ["_id"; "agenda"; "dateTime"; "timestamp"; "location"; "notes"] →
  Forall (stage_keeps k) view_joins.
Proof.
  intros Hk. repeat (apply elem_of_cons in Hk as [->|Hk]);
    [..|by apply elem_of_nil in Hk];
    unfold view_joins; repeat constructor; done.
Qed.

(** Every answer of [view], with what the store held for it. *)
Lemma view_cases (req : request) (w : world) :
  let i := req_params_id req in
  (∃ e, (view req w).1 = Ok (Response 400 (VObj [("error", VStr e)]))) ∨
  ((view req w).1 =
     Ok (Response 404 (VObj [("message", VStr "No meeting found.")])) ∧
   Meetings w !! i = None) ∨
  (∃ d first rest,
     (view req w).1 = Ok (Response 200 (VObj first)) ∧
     Meetings w !! i = Some d ∧
     run_pipeline (collection w) view_joins [with_id i d] =
       Ok (first :: rest)).
Proof.
  intros i. destruct (Meetings w !! i) as [d|] eqn:Hd.
  - destruct (calls_ok 1 (faults w)) eqn:Hok.
    + rewrite (view_found req w d Hd Hok). fold i.
      rewrite view_pipeline_run, Hd.
      destruct (head (tail (faults w))) as [[e|]|]; [eauto|..].
      all: destruct (run_pipeline _ _ _) as [[|first rest]|m] eqn:Hrun;
        [|by eauto 10|by eauto].
      all: destruct (run_pipeline_reaches _ _ _ _ (with_id i d)
                       view_joins_pass Hrun) as (r & Hr & _);
        [by left|by apply elem_of_nil in Hr].
    + left. unfold view, try_catch, bind. fold i. rewrite findOne_by_id.
      destruct (faults w) as [|[e|] fs]; [done| |done]. simpl. eauto.
  - rewrite (view_absent req w Hd).
    destruct (head (faults w)) as [[e|]|]; [by eauto|by right; left..].
Qed.

Lemma view_200_row (req : request) (w : world) (p : value) :
  (view req w).1 = Ok (Response 200 p) →
  let i := req_params_id req in
  ∃ d first rest,
    p = VObj first ∧ Meetings w !! i = Some d ∧
    run_pipeline (collection w) view_joins [with_id i d] = Ok (first :: rest).
Proof.
  intros H i.
  destruct (view_cases req w) as [[e He]|[[He _]|(d & first & rest & He & Hd & Hrun)]];
    rewrite He in H; try done.
  injection H as <-. by exists d, first, rest.
Qed.

(** The fields of the record a 200 of [view] returns. *)
Lemma view_row_fields (req : request) (w : world) (p : value) :
  (view req w).1 = Ok (Response 200 p) →
  let i := req_params_id req in
  ∃ row d,
    p = VObj row ∧ Meetings w !! i = Some d ∧
    doc_get "_id" row = Some (VOid i) ∧
    (∀ k, k ∈ ["agenda"; "dateTime"; "timestamp"; "location"; "notes"] →
          doc_get k row = doc_get k d) ∧
    (∀ k, k ∈ keys row → k ∈ view_fields).
Proof.
  intros H i.
  destruct (view_200_row req w p H) as (d & first & rest & -> & Hd & Hrun).
  fold i in Hd, Hrun. exists first, d. split; [done|]. split; [done|].
  destruct (run_pipeline_origin _ _ _ _ first Hrun) as (x & Hx & Hk);
    [by left|].
  apply list_elem_of_singleton in Hx as ->.
  split; [|split].
  - rewrite (Hk "_id") by (apply view_joins_keep; by left). done.
  - intros k Hin. rewrite (Hk k).
    + repeat (apply elem_of_cons in Hin as [->|Hin]); try done.
      by apply elem_of_nil in Hin.
    + apply view_joins_keep. by right.
  - intros k. eapply (run_pipeline_projected _ (take 5 view_joins)
                        view_fields _ _ first); [exact Hrun|by left].
Qed.

(** X8. When [view] answers 200, the record it returns has the requested
    identity, the agenda, date, timestamp, location and notes of the stored
    meeting, and no field outside the eight projected ones. *)
Theorem view_ok_fields (req : request) (w : world) (p : value) :
  (view req w).1 = Ok (Response 200 p) →
  let i := req_params_id req in
  ∃ row d,
    p = VObj row ∧ Meetings w !! i = Some d ∧
    doc_get "_id" row = Some (VOid i) ∧
    (∀ k, k ∈ ["agenda"; "dateTime"; "timestamp"; "location"; "notes"] →
          doc_get k row = doc_get k d) ∧
    (∀ k, k ∈ keys row → k ∈ view_fields).
Proof. exact (view_row_fields req w p). Qed.

Lemma view_ok_fields_witness :
  let w := Sample.two_meetings in
  let req := Sample.req_of 1 101 [] VNull in
  let p := VObj [("_id", VOid 101); ("agenda", VStr "Sync");
                 ("dateTime", VStr "2024-01-01T10:00:00Z");
                 ("location", VStr "Room 4"); ("notes", VStr "weekly");
                 ("timestamp", VDate "2024-01-01T09:00:00.000Z");
                 ("createdByName", VStr "Ada Lovelace");
                 ("attendesNames", VNull)] in
  (view req w).1 = Ok (Response 200 p) ∧
  ∃ row d,
    p = VObj row ∧ Meetings w !! 101%N = Some d ∧
    doc_get "_id" row = Some (VOid 101) ∧
    (∀ k, k ∈ ["agenda"; "dateTime"; "timestamp"; "location"; "notes"] →
          doc_get k row = doc_get k d) ∧
    (∀ k, k ∈ keys row → k ∈ view_fields).
Proof.
  intros w req p.
  assert (H : (view req w).1 = Ok (Response 200 p)) by reflexivity.
  split; [exact H|]. exact (view_ok_fields req w p H).
Defined.

Lemma attendesNames_missing (vars d : doc) :
  doc_get "attendesData" d = None →
  eval vars d attendesNames = Ok (Some VNull).
Proof. intros H. unfold attendesNames. simpl. by rewrite H. Qed.

Lemma unwind_array (path : string) (b : bool) (d : doc) (x : value)
    (xs : list value) :
  doc_get path d = Some (VArr (x :: xs)) →
  unwind path b d = (λ v, doc_set path v d) <$> x :: xs.
Proof. unfold unwind. by intros ->. Qed.

(** From the attendee join on, a row that comes out has a null
    [attendesNames]: the join found no contact, or [$map] has thrown. *)
Lemma view_tail_attendesNames (coll : string → list doc) (ds rs : list doc)
    (r : doc) :
  run_pipeline coll (drop 2 view_joins) ds = Ok rs → r ∈ rs →
  doc_get "attendesNames" r = Some VNull.
Proof.
  unfold run_pipeline, view_joins. cbn [drop run_stage].
  destruct (map_result _ _) as [added|] eqn:Hadd; [|done].
  intros [= <-] Hr.
  apply list_elem_of_fmap in Hr as (r1 & -> & Hr1).
  destruct (map_result_elem _ _ _ _ Hadd Hr1) as (r2 & Hr2 & Hf).
  apply list_elem_of_bind in Hr2 as (r3 & Hr2 & Hr3).
  apply list_elem_of_fmap in Hr3 as (y & -> & _).
  rewrite doc_get_project by done.
  revert Hr2 Hf. cbn [add_fields].
  destruct (List.filter _ _) as [|c cs].
  - unfold unwind. rewrite doc_get_set_eq. cbn [fmap list_fmap].
    intros Hr2. apply list_elem_of_singleton in Hr2 as ->.
    rewrite (attendesNames_missing _ _ (doc_get_unset_eq _ _)).
    destruct (eval [] _ createdByName_str) as [[v|]|]; [| |done];
      intros [= <-]; apply doc_get_set_eq.
  - rewrite (unwind_array _ _ _ (VObj c) (VObj <$> cs))
      by apply doc_get_set_eq.
    intros Hr2. apply list_elem_of_fmap in Hr2 as (z & -> & Hz).
    apply (list_elem_of_fmap VObj (c :: cs)) in Hz as (o & -> & _).
    rewrite (attendesNames_rejects_object _ _ o) by apply doc_get_set_eq.
    by destruct (eval [] _ createdByName_str) as [[v|]|].
Qed.

(** X9. When [view] answers 200, the [attendesNames] of the record is null:
    the names of attendees are never returned. *)
Theorem view_ok_attendesNames_null (req : request) (w : world) (p : value) :
  (view req w).1 = Ok (Response 200 p) →
  field_of "attendesNames" p = Some VNull.
Proof.
  intros H.
  destruct (view_200_row req w p H) as (d & first & rest & -> & Hd & Hrun).
  unfold view_joins in Hrun.
  do 2 (rewrite run_pipeline_cons in Hrun; cbn [run_stage] in Hrun).
  apply (view_tail_attendesNames _ _ _ first Hrun). by left.
Qed.

Lemma view_ok_attendesNames_null_witness :
  let w := Sample.two_meetings in
  let req := Sample.req_of 1 101 [] VNull in
  let p := VObj [("_id", VOid 101); ("agenda", VStr "Sync");
                 ("dateTime", VStr "2024-01-01T10:00:00Z");
                 ("location", VStr "Room 4"); ("notes", VStr "weekly");
                 ("timestamp", VDate "2024-01-01T09:00:00.000Z");
                 ("createdByName", VStr "Ada Lovelace");
                 ("attendesNames", VNull)] in
  (view req w).1 = Ok (Response 200 p) ∧
  field_of "attendesNames" p = Some VNull.
Proof.
  intros w req p.
  assert (H : (view req w).1 = Ok (Response 200 p)) by reflexivity.
  split; [exact H|]. exact (view_ok_attendesNames_null req w p H).
Defined.

(** X10. [view] always answers, with 200, 400 or 404.  A 404 is always
    "No meeting found." for an identity without a stored meeting: the
    second 404, "No data found for this meeting.", is never sent when
    nothing else changes the store between the lookup and the
    aggregation. *)
Theorem view_never_no_data (req : request) (w : world) :
  ∃ r, (view req w).1 = Ok r ∧
       (status r = 200 ∨ status r = 400 ∨ status r = 404)%Z ∧
       payload r ≠ VObj [("message", VStr "No data found for this meeting.")] ∧
       (status r = 404%Z →
        payload r = VObj [("message", VStr "No meeting found.")] ∧
        Meetings w !! req_params_id req = None).
Proof.
  destruct (view_cases req w)
    as [[e He]|[[He Hn]|(d & first & rest & He & Hd & Hrun)]];
    rewrite He; eexists; (split; [done|]); simpl.
  - repeat split; try done; eauto.
  - repeat split; try done; eauto.
  - repeat split; try done; eauto.
    intros [= ->].
    unfold view_joins in Hrun.
    do 2 (rewrite run_pipeline_cons in Hrun; cbn [run_stage] in Hrun).
    by pose proof (view_tail_attendesNames _ _ _ _ Hrun (list_elem_of_here _ _)).
Qed.

(** X11. For a stored meeting, when the lookup has answered and the
    aggregation fails, in the store or in the pipeline, [view] answers 400
    with the message of the failure in the payload, and logs it. *)
Theorem view_aggregation_failure (req : request) (w : world) (d : doc)
    (e : string) :
  let i := req_params_id req in
  Meetings w !! i = Some d →
  calls_ok 1 (faults w) = true →
  head (tail (faults w)) = Some (Some e) ∨
  (calls_ok 2 (faults w) = true ∧
   run_pipeline (collection w) (view_pipeline (VOid i)) (docs_of (Meetings w)) =
     Throw e) →
  (view req w).1 = Ok (Response 400 (VObj [("error", VStr e)])) ∧
  console (view req w).2 =
    (console w ++ [("Error fetching meeting details: " ++ e)%string])%list ∧
  Meetings (view req w).2 = Meetings w.
Proof.
  intros i Hd Hok Hfail. unfold view, try_catch, bind. fold i.
  rewrite findOne_by_id, Hd.
  assert (Hh : match head (faults w) with Some (Some _) => False | _ => True end)
    by (by destruct (faults w) as [|[e1|] fs]).
  destruct (head (faults w)) as [[e1|]|]; [done|..];
    cbn [fmap option_fmap option_map].
  all: change (default VNull (doc_get "_id" (with_id i d))) with (VOid i).
  all: rewrite aggregate_run.
  all: change (faults (issue _ w)) with (tail (faults w)).
  all: change (collection (issue _ w)) with (collection w).
  all: change (Meetings (issue _ w)) with (Meetings w).
  all: destruct Hfail as [-> | [Hok2 ->]]; [done|].
  all: by destruct (faults w) as [|[e1|] [|[e2|] fs]].
Qed.

Lemma view_aggregation_failure_witness :
  let w := Sample.after_add Sample.sync_body in
  let req := Sample.req_of 1 100 [] VNull in
  let e := "input to $map must be an array not object" in
  Meetings w !! 100%N = Some (sample_stored [VOid 11; VOid 12] false) ∧
  calls_ok 2 (faults w) = true ∧
  run_pipeline (collection w) (view_pipeline (VOid 100))
    (docs_of (Meetings w)) = Throw e ∧
  (view req w).1 = Ok (Response 400 (VObj [("error", VStr e)])) ∧
  console (view req w).2 =
    ["Error fetching meeting details: input to $map must be an array not object"].
Proof.
  intros w req e.
  assert (Hd : Meetings w !! 100%N =
               Some (sample_stored [VOid 11; VOid 12] false)) by reflexivity.
  assert (Hok : calls_ok 2 (faults w) = true) by reflexivity.
  assert (Hrun : run_pipeline (collection w) (view_pipeline (VOid 100))
                   (docs_of (Meetings w)) = Throw e) by reflexivity.
  split; [exact Hd|]. split; [exact Hok|]. split; [exact Hrun|].
  destruct (view_aggregation_failure req w _ e Hd eq_refl
              (or_intror (conj Hok Hrun))) as (Hr & Hc & _).
  split; [exact Hr|exact Hc].
Defined.

(** X12. A soft delete does not change what [view] answers: with the store
    reachable, the view of an identity after its soft delete is the answer
    the view gave before. *)
Theorem view_after_soft_delete (req : request) (w : world) :
  calls_ok 3 (faults w) = true →
  (view req (deleteData req w).2).1 = (view req w).1.
Proof. exact (view_ignores_soft_delete req w). Qed.

Lemma view_after_soft_delete_witness :
  let w := Sample.two_meetings in
  let req := Sample.req_of 2 101 [] VNull in
  calls_ok 3 (faults w) = true ∧
  is_deleted <$> Meetings (deleteData req w).2 !! 101%N = Some true ∧
  (view req (deleteData req w).2).1 = (view req w).1.
Proof.
  intros w req.
  assert (Hok : calls_ok 3 (faults w) = true) by reflexivity.
  split; [exact Hok|]. split; [reflexivity|].
  exact (view_after_soft_delete req w Hok).
Defined.

(** X13. A stored meeting with an attendee reference that matches a stored
    contact cannot be viewed: with the store reachable, the answer is a
    400. *)
Theorem view_matched_attendee (req : request) (w : world)
    (d c : doc) (cs : list doc) :
  let i := req_params_id req in
  Meetings w !! i = Some d →
  calls_ok 2 (faults w) = true →
  List.filter (lookup_matches (doc_get "attendes" d) "_id")
    (docs_of (Contacts w)) = c :: cs →
  ∃ m, (view req w).1 = Ok (Response 400 (VObj [("error", VStr m)])).
Proof. exact (view_rejects_matched_attendee req w d c cs). Qed.

Lemma view_matched_attendee_witness :
  let w := Sample.two_meetings in
  let req := Sample.req_of 1 100 [] VNull in
  let d := sample_stored [VOid 11; VOid 12] false in
  Meetings w !! 100%N = Some d ∧
  calls_ok 2 (faults w) = true ∧
  List.filter (lookup_matches (doc_get "attendes" d) "_id")
    (docs_of (Contacts w)) = [with_id 12 Sample.cy; with_id 11 Sample.bob] ∧
  ∃ m, (view req w).1 = Ok (Response 400 (VObj [("error", VStr m)])).
Proof.
  intros w req d.
  assert (Hd : Meetings w !! 100%N = Some d) by reflexivity.
  assert (Hok : calls_ok 2 (faults w) = true) by reflexivity.
  assert (Hc : List.filter (lookup_matches (doc_get "attendes" d) "_id")
                 (docs_of (Contacts w)) =
               [with_id 12 Sample.cy; with_id 11 Sample.bob]) by reflexivity.
  split; [exact Hd|]. split; [exact Hok|]. split; [exact Hc|].
  exact (view_matched_attendee req w d _ _ Hd Hok Hc).
Defined.

(** ** What the soft deletes change *)

Lemma is_deleted_set (d : doc) :
  is_deleted (doc_set "deleted" (VBool true) d) = true.
Proof. unfold is_deleted. by rewrite doc_get_set_eq. Qed.

(** X14. A soft delete of one identity changes the [deleted] field of the
    meeting with that identity and nothing else: every other meeting, every
    other field of that meeting, the users and the contacts are as
    before. *)
Theorem deleteData_frame (req : request) (w : world) :
  let i := req_params_id req in
  let w' := (deleteData req w).2 in
  calls_ok 1 (faults w) = true →
  (∀ j, j ≠ i → Meetings w' !! j = Meetings w !! j) ∧
  (∀ d, Meetings w !! i = Some d →
        ∃ d', Meetings w' !! i = Some d' ∧
              ∀ k, k ≠ "deleted" → doc_get k d' = doc_get k d) ∧
  Users w' = Users w ∧ Contacts w' = Contacts w.
Proof.
  intros i w' Hok. unfold w'. rewrite (deleteData_ok _ _ Hok).
  cbn [snd Meetings Users Contacts set_Meetings]. fold i.
  split; [|split; [|done]].
  - intros j Hne. by apply lookup_alter_ne.
  - intros d Hd. exists (doc_set "deleted" (VBool true) d). split.
    + by rewrite lookup_alter_eq, Hd.
    + intros k Hk. by apply doc_get_set_ne.
Qed.

Lemma deleteData_frame_witness :
  let w := Sample.two_meetings in
  let req := Sample.req_of 2 101 [] VNull in
  let w' := (deleteData req w).2 in
  calls_ok 1 (faults w) = true ∧
  Meetings w' !! 100%N = Meetings w !! 100%N ∧
  (∃ d', Meetings w' !! 101%N = Some d' ∧
         ∀ k, k ≠ "deleted" →
              doc_get k d' = doc_get k (sample_stored [] false)).
Proof.
  intros w req w'.
  assert (Hok : calls_ok 1 (faults w) = true) by reflexivity.
  split; [exact Hok|].
  destruct (deleteData_frame req w Hok) as (Hother & Hthis & _).
  split; [by apply Hother|]. by apply Hthis.
Defined.

(** X15. When the store call of [deleteData] fails, the answer is 400 with
    the fixed text "Failed to delete meeting", the failure is logged, and
    no meeting is changed. *)
Theorem deleteData_failure (req : request) (w : world) (e : string)
    (fs : list (option string)) :
  faults w = Some e :: fs →
  (deleteData req w).1 =
    Ok (Response 400 (VObj [("error", VStr "Failed to delete meeting")])) ∧
  console (deleteData req w).2 =
    (console w ++ [("Failed to delete meeting: " ++ e)%string])%list ∧
  Meetings (deleteData req w).2 = Meetings w.
Proof.
  intros Hf.
  unfold deleteData, try_catch, bind, MeetingHistory_findByIdAndUpdate.
  by rewrite (store_call_fail _ _ _ _ _ Hf).
Qed.

Lemma deleteData_failure_witness :
  let w := set_faults [Some "connection lost"] Sample.two_meetings in
  let req := Sample.req_of 2 101 [] VNull in
  faults w = [Some "connection lost"] ∧
  (deleteData req w).1 =
    Ok (Response 400 (VObj [("error", VStr "Failed to delete meeting")])) ∧
  console (deleteData req w).2 = ["Failed to delete meeting: connection lost"] ∧
  Meetings (deleteData req w).2 = Meetings w.
Proof.
  intros w req.
  assert (Hf : faults w = [Some "connection lost"]) by reflexivity.
  split; [exact Hf|]. exact (deleteData_failure req w _ _ Hf).
Defined.

(** The meeting behind a row of the list is stored and not soft-deleted. *)
Lemma index_row_not_deleted (req : request) (w : world) (rows : list value)
    (row : doc) :
  (index req w).1 = Ok (Response 200 (VArr rows)) → VObj row ∈ rows →
  ∃ i d, doc_get "_id" row = Some (VOid i) ∧ Meetings w !! i = Some d ∧
         is_deleted d = false.
Proof.
  intros Hresp Hv.
  destruct (index_row_origin req w rows _ Hresp Hv)
    as (fl & i & d & r2 & r1 & Hfl & Hd & Hm & Hr2 & Hadd & [= ->]).
  exists i, d. rewrite (index_row_field "_id" i d r2 r1 _) by done.
  split; [done|]. split; [done|].
  pose proof (matches_lookup _ fl "deleted" (VBool false) _ (with_id i d)
                Hfl (index_query_deleted _ _) eq_refl Hm) as Hdel.
  unfold is_deleted. simpl in Hdel.
  destruct (doc_get "deleted" d) as [[| [] | | | | | |]|]; done.
Qed.

(** X16. After a soft delete that reached the store, no answer of the list
    has a row with the deleted identity, for any actor and any query. *)
Theorem deleteData_then_index (req req' : request) (w : world)
    (rows : list value) (row : doc) :
  calls_ok 1 (faults w) = true →
  (index req' (deleteData req w).2).1 = Ok (Response 200 (VArr rows)) →
  VObj row ∈ rows →
  doc_get "_id" row ≠ Some (VOid (req_params_id req)).
Proof.
  intros Hok Hresp Hrow Hid.
  destruct (index_row_not_deleted _ _ _ _ Hresp Hrow) as (i & d & Hi & Hd & Hdel).
  rewrite Hi in Hid. injection Hid as ->.
  rewrite (deleteData_ok _ _ Hok) in Hd.
  cbn [snd Meetings set_Meetings] in Hd. rewrite lookup_alter_eq in Hd.
  destruct (Meetings w !! req_params_id req) as [d0|]; [|done].
  injection Hd as <-. by rewrite is_deleted_set in Hdel.
Qed.

Lemma deleteData_then_index_witness :
  let w := Sample.two_meetings in
  let req := Sample.req_of 2 101 [] VNull in
  let req' := Sample.req_of 1 0 [] VNull in
  let rows := [VObj (sample_row 100)] in
  calls_ok 1 (faults w) = true ∧
  (index req' (deleteData req w).2).1 = Ok (Response 200 (VArr rows)) ∧
  doc_get "_id" (sample_row 100) ≠ Some (VOid 101).
Proof.
  intros w req req' rows.
  assert (Hok : calls_ok 1 (faults w) = true) by reflexivity.
  assert (H : (index req' (deleteData req w).2).1 =
              Ok (Response 200 (VArr rows))) by reflexivity.
  split; [exact Hok|]. split; [exact H|].
  apply (deleteData_then_index req req' w rows (sample_row 100) Hok H).
  apply list_elem_of_here.
Defined.

(** The outcome of [deleteMany] on an array of identities, with the store
    reachable. *)
Lemma deleteMany_outcome (ids : list oid) (req : request) (w : world) :
  req_body req = VArr (VOid <$> ids) →
  calls_ok 1 (faults w) = true →
  let targets :=
    List.filter (λ kd, bool_decide (kd.1 ∈ ids)) (map_to_list (Meetings w)) in
  (∀ i, Meetings (deleteMany req w).2 !! i =
          if bool_decide (i ∈ ids)
          then doc_set "deleted" (VBool true) <$> Meetings w !! i
          else Meetings w !! i) ∧
  (deleteMany req w).1 =
    Ok (Response 200
          (VObj [("message", VStr "Meetings deleted successfully");
                 ("result",
                  update_summary (length targets)
                    (length (List.filter (λ kd, negb (is_deleted kd.2))
                               targets)))])).
Proof.
  intros Hbody Hok targets. unfold targets.
  unfold deleteMany, try_catch, bind, MeetingHistory_updateMany.
  rewrite Hbody, (store_call_ok _ _ _ Hok), compile_in.
  cbv zeta. cbn [fst snd ret].
  change (Meetings (issue _ w)) with (Meetings w).
  split.
  - intros i. unfold set_Meetings. cbn [Meetings].
    rewrite map_lookup_imap.
    destruct (Meetings w !! i) as [d|];
      cbn [mbind option_bind fmap option_fmap option_map].
    + by rewrite matches_in; destruct (bool_decide (i ∈ ids)).
    + by destruct (bool_decide (i ∈ ids)).
  - do 4 f_equal.
    rewrite (filter_ext (λ kd, matches [("_id", CIn (VOid <$> ids))]
                                 (with_id kd.1 kd.2))
               (λ kd, bool_decide (kd.1 ∈ ids)))
      by (intros [k d]; apply matches_in).
    do 4 f_equal. apply filter_ext. intros [k d]. apply set_deleted_changes.
Qed.

Lemma filter_none {A} (f : A → bool) (l : list A) :
  (∀ x, x ∈ l → f x = false) → List.filter f l = [].
Proof.
  induction l as [|a l IH]; intros H; [done|]. simpl.
  rewrite (H a) by (by left). apply IH. intros x Hx. apply H. by right.
Qed.

(** X17. The bulk soft delete is idempotent: the same array of identities
    a second time leaves the meetings as the first call left them, and its
    summary reports 0 modified. *)
Theorem deleteMany_twice (ids : list oid) (req : request) (w : world) :
  let first := deleteMany req w in
  let second := deleteMany req first.2 in
  req_body req = VArr (VOid <$> ids) →
  calls_ok 2 (faults w) = true →
  Meetings second.2 = Meetings first.2 ∧
  ∃ matched,
    second.1 =
      Ok (Response 200
            (VObj [("message", VStr "Meetings deleted successfully");
                   ("result", update_summary matched 0)])).
Proof.
  intros first second Hbody Hok.
  assert (H1 : calls_ok 1 (faults w) = true) by (by eapply calls_ok_1).
  destruct (deleteMany_outcome ids req w Hbody H1) as [Hm1 _].
  fold first in Hm1.
  assert (H2 : calls_ok 1 (faults first.2) = true).
  { unfold first, deleteMany, try_catch, bind, MeetingHistory_updateMany.
    rewrite Hbody, (store_call_ok _ _ _ H1), compile_in.
    by apply (calls_ok_tail 1). }
  destruct (deleteMany_outcome ids req first.2 Hbody H2) as [Hm2 Hr2].
  fold second in Hm2, Hr2. split.
  - apply map_eq. intros i. rewrite Hm2, Hm1.
    destruct (bool_decide (i ∈ ids)); [|done].
    destruct (Meetings w !! i); [|done]. simpl. by rewrite doc_set_set.
  - eexists. rewrite Hr2.
    rewrite (filter_none (λ kd : oid * doc, negb (is_deleted kd.2)));
      [done|].
    intros [k d] Hin. apply list_elem_of_In, filter_In in Hin as [Hin Hk].
    apply list_elem_of_In, elem_of_map_to_list in Hin.
    simpl in Hk, Hin |- *. rewrite Hm1, Hk in Hin.
    destruct (Meetings w !! k) as [d0|]; [|done]. injection Hin as <-.
    by rewrite is_deleted_set.
Qed.

Lemma deleteMany_twice_witness :
  let w := Sample.two_meetings in
  let req := Sample.req_of 2 0 [] (VArr [VOid 100; VOid 7; VOid 101]) in
  let first := deleteMany req w in
  let second := deleteMany req first.2 in
  req_body req = VArr (VOid <$> [100%N; 7%N; 101%N]) ∧
  calls_ok 2 (faults w) = true ∧
  Meetings second.2 = Meetings first.2 ∧
  second.1 =
    Ok (Response 200
          (VObj [("message", VStr "Meetings deleted successfully");
                 ("result", update_summary 2 0)])).
Proof.
  intros w req first second.
  assert (Hbody : req_body req = VArr (VOid <$> [100%N; 7%N; 101%N]))
    by reflexivity.
  assert (Hok : calls_ok 2 (faults w) = true) by reflexivity.
  split; [exact Hbody|]. split; [exact Hok|].
  destruct (deleteMany_twice _ req w Hbody Hok) as [Hm _].
  split; [exact Hm|reflexivity].
Defined.

(** X18. The bulk soft delete of a one-element array changes the meetings
    exactly as the soft delete of that identity does. *)
Theorem deleteMany_single_is_deleteData (a b i : oid) (q q' : doc)
    (body : value) (w : world) :
  calls_ok 1 (faults w) = true →
  Meetings (deleteMany (Request a 0%N q (VArr [VOid i])) w).2 =
  Meetings (deleteData (Request b i q' body) w).2.
Proof.
  intros Hok.
  destruct (deleteMany_outcome [i] (Request a 0%N q (VArr [VOid i])) w
              eq_refl Hok) as [Hm _].
  apply map_eq. intros j. rewrite Hm, (deleteData_ok _ _ Hok).
  cbn [snd Meetings set_Meetings req_params_id].
  destruct (decide (j = i)) as [->|Hne].
  - rewrite lookup_alter_eq, bool_decide_eq_true_2; [done|by left].
  - rewrite lookup_alter_ne by done.
    rewrite bool_decide_eq_false_2; [done|].
    intros Hin. by apply list_elem_of_singleton in Hin.
Qed.

Lemma deleteMany_single_is_deleteData_witness :
  let w := Sample.two_meetings in
  calls_ok 1 (faults w) = true ∧
  Meetings (deleteMany (Request 2 0%N [] (VArr [VOid 101])) w).2 =
  Meetings (deleteData (Request 1 101%N [] VNull) w).2.
Proof.
  intros w.
  assert (Hok : calls_ok 1 (faults w) = true) by reflexivity.
  split; [exact Hok|].
  exact (deleteMany_single_is_deleteData 2 1 101 [] [] VNull w Hok).
Defined.

(** X19. When the store call of [deleteMany] fails, the answer is 400 with
    the fixed text "Failed to delete meetings", the failure is logged, and
    no meeting is changed. *)
Theorem deleteMany_failure (req : request) (w : world) (e : string)
    (fs : list (option string)) :
  faults w = Some e :: fs →
  (deleteMany req w).1 =
    Ok (Response 400 (VObj [("error", VStr "Failed to delete meetings")])) ∧
  console (deleteMany req w).2 =
    (console w ++ [("Failed to delete meetings: " ++ e)%string])%list ∧
  Meetings (deleteMany req w).2 = Meetings w.
Proof.
  intros Hf.
  unfold deleteMany, try_catch, bind, MeetingHistory_updateMany.
  by rewrite (store_call_fail _ _ _ _ _ Hf).
Qed.

Lemma deleteMany_failure_witness :
  let w := set_faults [Some "connection lost"] Sample.two_meetings in
  let req := Sample.req_of 2 0 [] (VArr [VOid 100]) in
  faults w = [Some "connection lost"] ∧
  (deleteMany req w).1 =
    Ok (Response 400 (VObj [("error", VStr "Failed to delete meetings")])) ∧
  console (deleteMany req w).2 =
    ["Failed to delete meetings: connection lost"] ∧
  Meetings (deleteMany req w).2 = Meetings w.
Proof.
  intros w req.
  assert (Hf : faults w = [Some "connection lost"]) by reflexivity.
  split; [exact Hf|]. exact (deleteMany_failure req w _ _ Hf).
Defined.

(** X20. The bulk soft delete reads its array as a set: two arrays with
    the same identities, in any order and with any repetitions, give the
    same answer and the same meetings. *)
Theorem deleteMany_by_membership (ids ids' : list oid) (a b : oid) (q q' : doc)
    (w : world) :
  calls_ok 1 (faults w) = true →
  (∀ i, i ∈ ids ↔ i ∈ ids') →
  (deleteMany (Request a 0%N q (VArr (VOid <$> ids))) w).1 =
  (deleteMany (Request b 0%N q' (VArr (VOid <$> ids'))) w).1 ∧
  Meetings (deleteMany (Request a 0%N q (VArr (VOid <$> ids))) w).2 =
  Meetings (deleteMany (Request b 0%N q' (VArr (VOid <$> ids'))) w).2.
Proof.
  intros Hok Hsame.
  destruct (deleteMany_outcome ids (Request a 0%N q (VArr (VOid <$> ids))) w
              eq_refl Hok) as [Hm Hr].
  destruct (deleteMany_outcome ids' (Request b 0%N q' (VArr (VOid <$> ids'))) w
              eq_refl Hok) as [Hm' Hr'].
  assert (Hdec : ∀ i, bool_decide (i ∈ ids) = bool_decide (i ∈ ids'))
    by (intros i; apply bool_decide_ext, Hsame).
  split.
  - rewrite Hr, Hr'.
    by rewrite (filter_ext (λ kd : oid * doc, bool_decide (kd.1 ∈ ids))
                  (λ kd, bool_decide (kd.1 ∈ ids')))
      by (intros [k d]; apply Hdec).
  - apply map_eq. intros i. by rewrite Hm, Hm', Hdec.
Qed.

Lemma deleteMany_by_membership_witness :
  let w := Sample.two_meetings in
  let ids := [100%N; 101%N] in
  let ids' := [101%N; 100%N; 101%N] in
  calls_ok 1 (faults w) = true ∧
  (∀ i, i ∈ ids ↔ i ∈ ids') ∧
  (deleteMany (Request 1 0%N [] (VArr (VOid <$> ids))) w).1 =
  (deleteMany (Request 2 0%N [] (VArr (VOid <$> ids'))) w).1.
Proof.
  intros w ids ids'.
  assert (Hok : calls_ok 1 (faults w) = true) by reflexivity.
  assert (Hsame : ∀ i, i ∈ ids ↔ i ∈ ids').
  { intros i. unfold ids, ids'. rewrite !elem_of_cons, !elem_of_nil. tauto. }
  split; [exact Hok|]. split; [exact Hsame|].
  exact (proj1 (deleteMany_by_membership ids ids' 1 2 [] [] w Hok Hsame)).
Defined.

(** X21. After a bulk soft delete that reached the store, no answer of the
    list has a row with one of the deleted identities. *)
Theorem deleteMany_then_index (ids : list oid) (req req' : request)
    (w : world) (rows : list value) (row : doc) (i : oid) :
  req_body req = VArr (VOid <$> ids) →
  calls_ok 1 (faults w) = true →
  (index req' (deleteMany req w).2).1 = Ok (Response 200 (VArr rows)) →
  VObj row ∈ rows → i ∈ ids →
  doc_get "_id" row ≠ Some (VOid i).
Proof.
  intros Hbody Hok Hresp Hrow Hi Hid.
  destruct (index_row_not_deleted _ _ _ _ Hresp Hrow) as (j & d & Hj & Hd & Hdel).
  rewrite Hj in Hid. injection Hid as ->.
  destruct (deleteMany_outcome ids req w Hbody Hok) as [Hm _].
  rewrite Hm, bool_decide_eq_true_2 in Hd by done.
  destruct (Meetings w !! i) as [d0|]; [|done].
  injection Hd as <-. by rewrite is_deleted_set in Hdel.
Qed.

Lemma deleteMany_then_index_witness :
  let w := Sample.two_meetings in
  let req := Sample.req_of 2 0 [] (VArr [VOid 101; VOid 7]) in
  let req' := Sample.req_of 1 0 [] VNull in
  let rows := [VObj (sample_row 100)] in
  req_body req = VArr (VOid <$> [101%N; 7%N]) ∧
  calls_ok 1 (faults w) = true ∧
  (index req' (deleteMany req w).2).1 = Ok (Response 200 (VArr rows)) ∧
  doc_get "_id" (sample_row 100) ≠ Some (VOid 101).
Proof.
  intros w req req' rows.
  assert (Hbody : req_body req = VArr (VOid <$> [101%N; 7%N])) by reflexivity.
  assert (Hok : calls_ok 1 (faults w) = true) by reflexivity.
  assert (H : (index req' (deleteMany req w).2).1 =
              Ok (Response 200 (VArr rows))) by reflexivity.
  split; [exact Hbody|]. split; [exact Hok|]. split; [exact H|].
  apply (deleteMany_then_index _ req req' w rows (sample_row 100) 101%N
           Hbody Hok H); [apply list_elem_of_here|by left].
Defined.

(** ** What the creation answers and stores *)

Lemma doc_unset_absent (k : string) (d : doc) :
  doc_get k d = None → doc_unset k d = d.
Proof.
  induction d as [|[k' v] d IH]; simpl; [done|].
  destruct (String.eqb k k'); [done|]. intros H. by rewrite IH.
Qed.

(** A new document for an object body: the next identity in front of a
    document that has no [_id] of its own. *)
Lemma MeetingHistory_new_object (b : doc) (w : world) :
  ∃ d, MeetingHistory_new (VObj b) w =
         (Ok (with_id (next_oid w) d), set_next_oid (N.succ (next_oid w)) w) ∧
       doc_get "_id" d = None.
Proof.
  unfold MeetingHistory_new. eexists. split; [reflexivity|].
  destruct (doc_get "deleted" _) eqn:E1;
    destruct (doc_get "timestamp" _) eqn:E2;
    rewrite ?doc_get_set_ne by done; apply doc_get_unset_eq.
Qed.

(** Every outcome of [add]: a 200 with the record as it is stored, under
    an identity that was free, or a 400 that leaves the meetings as they
    were. *)
Lemma add_cases (req : request) (w : world) :
  (∃ i d,
     (add req w).1 = Ok (Response 200 (VObj (with_id i d))) ∧
     Meetings w !! i = None ∧
     Meetings (add req w).2 = <[i := d]> (Meetings w)) ∨
  (∃ e,
     (add req w).1 =
       Ok (Response 400
             (VObj [("err", err_json e); ("error", VStr "Failed to create")])) ∧
     Meetings (add req w).2 = Meetings w ∧
     console (add req w).2 =
       (console w ++ [("Failed to create : " ++ e)%string])%list).
Proof.
  unfold add, try_catch, bind.
  destruct (req_body req) as [| | | | | | |b];
    try (right; eexists; by repeat split).
  destruct (MeetingHistory_new_object b w) as (d & -> & Hid).
  unfold MeetingHistory_save, store_call.
  change (faults (set_next_oid _ w)) with (faults w).
  destruct (head (faults w)) as [[e|]|]; [right; eexists; by repeat split|..].
  all: change (doc_get "_id" (with_id (next_oid w) d))
         with (Some (VOid (next_oid w))); cbv beta iota.
  all: change (Meetings (issue _ (set_next_oid _ w))) with (Meetings w).
  all: destruct (Meetings w !! next_oid w) eqn:Hfree;
    [right; eexists; by repeat split|].
  all: left; exists (next_oid w), d; split; [done|]; split; [done|].
  all: cbn [snd ret Meetings set_Meetings].
  all: change (doc_unset "_id" (with_id (next_oid w) d))
         with (doc_unset "_id" d).
  all: by rewrite doc_unset_absent.
Qed.

(** X1. When [add] answers 200, the record in the answer is the record that
    is stored, under the identity in the answer; that identity was not in
    use, and every other meeting is as it was. *)
Theorem add_answer_is_stored (req : request) (w : world) (p : value) :
  (add req w).1 = Ok (Response 200 p) →
  ∃ i d,
    p = VObj (with_id i d) ∧
    Meetings w !! i = None ∧
    Meetings (add req w).2 !! i = Some d ∧
    ∀ j, j ≠ i → Meetings (add req w).2 !! j = Meetings w !! j.
Proof.
  intros H.
  destruct (add_cases req w) as [(i & d & Hr & Hfree & Hm)|(e & Hr & _)];
    rewrite Hr in H; [|done].
  injection H as <-. exists i, d. split; [done|]. split; [done|].
  rewrite Hm. split.
  - apply lookup_insert_eq.
  - intros j Hne. by apply lookup_insert_ne.
Qed.

Lemma add_answer_is_stored_witness :
  let w := Sample.after_add Sample.sync_body in
  let req := Sample.req_of 1 0 [] Sample.solo_body in
  let p := VObj (with_id 101 (sample_stored [] false)) in
  (add req w).1 = Ok (Response 200 p) ∧
  ∃ i d,
    p = VObj (with_id i d) ∧
    Meetings w !! i = None ∧
    Meetings (add req w).2 !! i = Some d ∧
    ∀ j, j ≠ i → Meetings (add req w).2 !! j = Meetings w !! j.
Proof.
  intros w req p.
  assert (H : (add req w).1 = Ok (Response 200 p)) by reflexivity.
  split; [exact H|]. exact (add_answer_is_stored req w p H).
Defined.

(** X2. [add] always answers, with 200 or 400.  A 400 carries the fixed
    text "Failed to create", leaves every meeting as it was and logs one
    line. *)
Theorem add_failure_is_contained (req : request) (w : world) :
  ∃ r, (add req w).1 = Ok r ∧
       (status r = 200 ∨ status r = 400)%Z ∧
       (status r = 400%Z →
        field_of "error" (payload r) = Some (VStr "Failed to create") ∧
        Meetings (add req w).2 = Meetings w ∧
        ∃ line, console (add req w).2 = (console w ++ [line])%list).
Proof.
  destruct (add_cases req w) as [(i & d & Hr & _)|(e & Hr & Hm & Hc)];
    rewrite Hr; eexists; (split; [done|]); simpl.
  - split; [by left|done].
  - split; [by right|]. intros _. split; [done|]. split; [done|]. eauto.
Qed.

(** ** The routes *)

Lemma index_same_store (req : request) (w : world) :
  same_store w (index req w).2.
Proof.
  unfold same_store, index, bind, User_findById, store_call.
  destruct (head (faults w)) as [[e|]|]; [done|..].
  all: unfold try_catch, bind; rewrite aggregate_run.
  all: destruct (head (faults _)) as [[e|]|]; [done|..].
  all: by destruct (run_pipeline _ _ _).
Qed.

Lemma view_same_store (req : request) (w : world) :
  same_store w (view req w).2.
Proof.
  unfold same_store, view, try_catch, bind. rewrite findOne_by_id.
  destruct (head (faults w)) as [[e|]|]; [done|..].
  all: destruct (Meetings w !! req_params_id req) as [d|]; [|done].
  all: cbn [fmap option_fmap option_map]; rewrite aggregate_run.
  all: destruct (head (faults _)) as [[e|]|]; [done|..].
  all: by destruct (run_pipeline _ _ _) as [[|first rest]|m].
Qed.

Lemma same_store_kept (w w' : world) : same_store w w' → kept w w'.
Proof.
  intros (Hm & Hu & Hc). split; [|done].
  intros i d Hd. exists d. rewrite Hm. eauto.
Qed.

Lemma add_kept (req : request) (w : world) : kept w (add req w).2.
Proof.
  assert (Hrest : Users (add req w).2 = Users w ∧
                  Contacts (add req w).2 = Contacts w).
  { unfold add, try_catch, bind.
    destruct (req_body req) as [| | | | | | |b]; try done.
    destruct (MeetingHistory_new_object b w) as (d & -> & _).
    unfold MeetingHistory_save, store_call.
    destruct (head (faults _)) as [[e|]|]; [done|..].
    all: change (doc_get "_id" (with_id (next_oid w) d))
           with (Some (VOid (next_oid w))); cbv beta iota.
    all: by destruct (Meetings _ !! next_oid w). }
  split; [|done]. intros j d Hd.
  destruct (add_cases req w) as [(i & x & _ & Hfree & Hm)|(e & _ & Hm & _)];
    rewrite Hm; exists d; (split; [|by left]); [|done].
  rewrite lookup_insert_ne; [done|]. intros ->. congruence.
Qed.

Lemma deleteData_kept (req : request) (w : world) :
  kept w (deleteData req w).2.
Proof.
  unfold kept, deleteData, try_catch, bind, MeetingHistory_findByIdAndUpdate,
    store_call.
  destruct (head (faults w)) as [[e|]|]; cbn [snd Meetings Users Contacts
    set_Meetings set_console console_error ret issue set_faults set_calls].
  1: { split; [|done]. intros i d Hd. exists d. eauto. }
  all: split; [|done]; intros i d Hd.
  all: destruct (decide (req_params_id req = i)) as [->|Hne];
    [rewrite lookup_alter_eq, Hd; eexists; split; [done|by right]
    |rewrite lookup_alter_ne by done; eauto].
Qed.

Lemma deleteMany_kept (req : request) (w : world) :
  kept w (deleteMany req w).2.
Proof.
  unfold kept, deleteMany, try_catch, bind, MeetingHistory_updateMany,
    store_call.
  destruct (head (faults w)) as [[e|]|].
  1: { split; [|done]. intros i d Hd. exists d. eauto. }
  all: destruct (compile_filter _) as [fl|m];
    [|split; [|done]; intros i d Hd; exists d; eauto].
  all: split; [|done]; intros i d Hd.
  all: cbn [snd Meetings set_Meetings ret]; rewrite map_lookup_imap.
  all: change (Meetings (issue _ w)) with (Meetings w); rewrite Hd.
  all: cbn [mbind option_bind].
  all: destruct (matches fl (with_id i d)); eauto.
Qed.

Lemma deleteData_answers (req : request) (w : world) :
  ∃ r, (deleteData req w).1 = Ok r.
Proof.
  unfold deleteData, try_catch, bind, MeetingHistory_findByIdAndUpdate,
    store_call.
  destruct (head (faults w)) as [[e|]|]; eauto.
Qed.

Lemma deleteMany_answers (req : request) (w : world) :
  ∃ r, (deleteMany req w).1 = Ok r.
Proof.
  unfold deleteMany, try_catch, bind, MeetingHistory_updateMany, store_call.
  destruct (head (faults w)) as [[e|]|]; [by eauto|..];
    destruct (compile_filter _); eauto.
Qed.

Lemma index_rejects_iff (req : request) (w : world) (e : string) :
  (index req w).1 = Throw e ↔ head (faults w) = Some (Some e).
Proof.
  unfold index, bind, User_findById, store_call.
  destruct (head (faults w)) as [[e'|]|].
  - simpl. split; congruence.
  - unfold try_catch, bind. rewrite aggregate_run.
    destruct (head (faults _)) as [[e'|]|]; [done|..];
      by destruct (run_pipeline _ _ _).
  - unfold try_catch, bind. rewrite aggregate_run.
    destruct (head (faults _)) as [[e'|]|]; [done|..];
      by destruct (run_pipeline _ _ _).
Qed.

Section Routes.

Variable credentials : Type.
Variable auth : credentials → auth_outcome.

(** X22. The two GET routes are read-only: whatever the credentials, the
    query and the store faults, the meetings, the users and the contacts
    are the same after [GET /] and after [GET /view/:id]. *)
Theorem get_routes_read_only (c : credentials) (q : doc) (b : value)
    (i : oid) (w : world) :
  same_store w (serve credentials auth GET_root c q b w).2 ∧
  same_store w (serve credentials auth (GET_view i) c q b w).2.
Proof.
  unfold serve. destruct (auth c) as [uid|res]; [|done].
  split; [apply index_same_store|apply view_same_store].
Qed.

(** X23. No route removes or rewrites a meeting: after any request on any
    of the five routes every stored meeting is still stored, either as it
    was or with [deleted] set to true, so that no route clears the flag;
    the users and the contacts are never changed. *)
Theorem routes_keep_meetings (r : route) (c : credentials) (q : doc)
    (b : value) (w : world) :
  kept w (serve credentials auth r c q b w).2.
Proof.
  unfold serve. destruct (auth c) as [uid|res].
  - destruct r; cbn [route_handler].
    + apply same_store_kept, index_same_store.
    + apply add_kept.
    + apply same_store_kept, view_same_store.
    + apply deleteData_kept.
    + apply deleteMany_kept.
  - split; [|done]. intros i d Hd. exists d. eauto.
Qed.

(** X24. Every route but the list always sends a response; the list sends
    none exactly when [auth] has passed the request on and the user lookup
    fails. *)
Theorem only_the_list_rejects (r : route) (c : credentials) (q : doc)
    (b : value) (w : world) :
  (r ≠ GET_root → ∃ res, (serve credentials auth r c q b w).1 = Ok res) ∧
  (∀ e, (serve credentials auth GET_root c q b w).1 = Throw e ↔
        (∃ uid, auth c = Next uid) ∧ head (faults w) = Some (Some e)).
Proof.
  unfold serve. destruct (auth c) as [uid|res]; split.
  - intros Hr. destruct r; cbn [route_handler]; [done|..].
    + destruct (add_cases (Request uid (route_id POST_add) q b) w)
        as [(i & d & Hres & _)|(e & Hres & _)]; eauto.
    + destruct (view_cases (Request uid (route_id (GET_view id)) q b) w)
        as [[e He]|[[He _]|(d & first & rest & He & _)]]; eauto.
    + apply deleteData_answers.
    + apply deleteMany_answers.
  - intros e. cbn [route_handler]. rewrite index_rejects_iff.
    split; [eauto|by intros [_ ?]].
  - eauto.
  - intros e. split; [done|]. by intros [[uid ?] _].
Qed.

End Routes.

(** ** Creation, then view *)

(** X25. Round trip, as far as it goes: when [add] answers 200 and the view
    of the identity it answered also answers 200, the record viewed has the
    identity, agenda, date, timestamp, location and notes of the record
    created. *)
Theorem add_then_view (req req' : request) (w : world) (p p' : value)
    (k : string) :
  (add req w).1 = Ok (Response 200 p) →
  field_of "_id" p = Some (VOid (req_params_id req')) →
  (view req' (add req w).2).1 = Ok (Response 200 p') →
  k ∈ ["_id"; "agenda"; "dateTime"; "timestamp"; "location"; "notes"] →
  field_of k p' = field_of k p.
Proof.
  intros Hadd Hid Hview Hk.
  destruct (add_cases req w) as [(i & d & Hr & _ & Hm)|(e & Hr & _)];
    rewrite Hr in Hadd; [|done].
  injection Hadd as <-. injection Hid as ->.
  destruct (view_row_fields _ _ _ Hview) as (row & d' & -> & Hd' & Hi & Hf & _).
  rewrite Hm, lookup_insert_eq in Hd'. injection Hd' as <-.
  apply elem_of_cons in Hk as [->|Hk]; [exact Hi|].
  cbn [field_of]. rewrite (Hf k Hk).
  repeat (apply elem_of_cons in Hk as [->|Hk]); try done.
  by apply elem_of_nil in Hk.
Qed.

Lemma add_then_view_witness :
  let w := Sample.after_add Sample.sync_body in
  let req := Sample.req_of 1 0 [] Sample.solo_body in
  let req' := Sample.req_of 2 101 [] VNull in
  let p := VObj (with_id 101 (sample_stored [] false)) in
  let p' := VObj [("_id", VOid 101); ("agenda", VStr "Sync");
                  ("dateTime", VStr "2024-01-01T10:00:00Z");
                  ("location", VStr "Room 4"); ("notes", VStr "weekly");
                  ("timestamp", VDate "2024-01-01T09:00:00.000Z");
                  ("createdByName", VStr "Ada Lovelace");
                  ("attendesNames", VNull)] in
  (add req w).1 = Ok (Response 200 p) ∧
  field_of "_id" p = Some (VOid (req_params_id req')) ∧
  (view req' (add req w).2).1 = Ok (Response 200 p') ∧
  field_of "notes" p' = field_of "notes" p.
Proof.
  intros w req req' p p'.
  assert (Hadd : (add req w).1 = Ok (Response 200 p)) by reflexivity.
  assert (Hid : field_of "_id" p = Some (VOid (req_params_id req')))
    by reflexivity.
  assert (Hview : (view req' (add req w).2).1 = Ok (Response 200 p'))
    by reflexivity.
  split; [exact Hadd|]. split; [exact Hid|]. split; [exact Hview|].
  apply (add_then_view req req' w p p' "notes" Hadd Hid Hview).
  do 5 (apply elem_of_cons; right). by left.
Defined.

(** ** The filter of the list and the role of the actor *)

(** The calls of [index] once the user lookup has answered: the lookup,
    then one aggregation whose first stage is the [$match] of the query
    built from the request, followed by the joins. *)
Lemma index_calls (req : request) (w : world) :
  calls_ok 1 (faults w) = true →
  let uid := req_user_userId req in
  let q := index_query req (with_id uid <$> Users w !! uid) in
  calls (index req w).2 =
    (calls w ++ [CallFindById uid; CallAggregate (Match q :: index_joins)])%list.
Proof.
  intros Hok uid q.
  destruct (index_ok req w Hok) as (Hcalls & _ & _). exact Hcalls.
Qed.

(** The answer of [index] once both store calls have answered, with the
    stages of the pipeline written out. *)
Lemma index_answer (req : request) (w : world) :
  calls_ok 2 (faults w) = true →
  let uid := req_user_userId req in
  let q := index_query req (with_id uid <$> Users w !! uid) in
  (index req w).1 =
    Ok (match run_pipeline (collection w) (Match q :: index_joins)
                (docs_of (Meetings w)) with
        | Ok rows => Response 200 (VArr (VObj <$> rows))
        | Throw _ => Response 500 (VStr "Internal Server Error")
        end).
Proof.
  intros Hok uid q.
  destruct (index_ok req w (calls_ok_1 _ _ Hok)) as (_ & Hrun & _).
  exact (Hrun Hok).
Qed.

(** The meeting behind a row of a 200 of [index]: stored, not soft-deleted,
    and, when the fetched user is not a superAdmin, with a creator field
    that matches the actor. *)
Lemma index_row_visible (req : request) (w : world) (rows : list value)
    (v : value) :
  let uid := req_user_userId req in
  (index req w).1 = Ok (Response 200 (VArr rows)) → v ∈ rows →
  ∃ row i d,
    v = VObj row ∧ doc_get "_id" row = Some (VOid i) ∧
    Meetings w !! i = Some d ∧ is_deleted d = false ∧
    (is_superAdmin (with_id uid <$> Users w !! uid) = false →
     eq_matches (doc_get creator_field d) (VOid uid) = true).
Proof.
  intros uid Hresp Hv.
  destruct (index_row_origin req w rows _ Hresp Hv)
    as (fl & i & d & r2 & r1 & Hfl & Hd & Hm & Hr2 & Hadd & ->).
  fold uid in Hfl.
  exists (project index_fields r1), i, d. split; [done|].
  rewrite (index_row_field "_id" i d r2 r1 _) by done.
  split; [done|]. split; [done|]. split.
  - pose proof (matches_lookup _ fl "deleted" (VBool false) _ (with_id i d)
                  Hfl (index_query_deleted _ _) eq_refl Hm) as Hdel.
    unfold is_deleted. simpl in Hdel.
    destruct (doc_get "deleted" d) as [[| [] | | | | | |]|]; done.
  - intros Hrole.
    assert (Hq : doc_get creator_field
                   (index_query req (with_id uid <$> Users w !! uid)) =
                 Some (VOid uid)).
    { unfold index_query. rewrite Hrole. apply doc_get_set_eq. }
    exact (matches_lookup _ fl creator_field (VOid uid) _ (with_id i d)
             Hfl Hq eq_refl Hm).
Qed.

(** Every stored meeting that passes the filter of [index] has a row in a
    200 of [index]. *)
Lemma index_complete (req : request) (w : world) (rows : list value)
    (fl : list (string * cond)) (i : oid) (d : doc) :
  let uid := req_user_userId req in
  (index req w).1 = Ok (Response 200 (VArr rows)) →
  compile_filter (index_query req (with_id uid <$> Users w !! uid)) = Ok fl →
  Meetings w !! i = Some d →
  matches fl (with_id i d) = true →
  ∃ row, VObj row ∈ rows ∧ doc_get "_id" row = Some (VOid i).
Proof.
  intros uid Hresp Hfl Hd Hm.
  destruct (index_200_rows req w rows Hresp) as (fl' & rs & -> & Hfl' & Hrun).
  fold uid in Hfl'. rewrite Hfl in Hfl'. injection Hfl' as <-.
  destruct (run_pipeline_reaches _ _ _ _ (with_id i d) index_joins_pass Hrun)
    as (r & Hr & Hk).
  - apply list_elem_of_In, filter_In. split; [|done].
    apply list_elem_of_In, docs_of_elem. eauto.
  - exists r. split; [by apply list_elem_of_fmap_2|].
    by rewrite (Hk "_id" index_joins_keep_id).
Qed.

(** C2. The aggregation [index] sends to the store is the [$match] of a
    filter [q] followed by the joins [index_joins].  When the actor's User
    record has a role other than superAdmin, [q] is the caller's query with
    [deleted] false and the creator field overwritten by the actor's
    identity, whatever the caller put there, and every row of a 200 comes
    from a stored meeting whose creator field matches the actor.  For a
    superAdmin, [q] is the caller's query with [deleted] false, its creator
    field is as the caller gave it, and every stored meeting that passes
    [q] has a row, whoever created it. *)
Theorem index_filter_by_role (req : request) (w : world) (u : doc) :
  let uid := req_user_userId req in
  let asked := doc_set "deleted" (VBool false) (req_query req) in
  Users w !! uid = Some u →
  calls_ok 1 (faults w) = true →
  ∃ q : doc,
    calls (index req w).2 =
      (calls w ++
       [CallFindById uid; CallAggregate (Match q :: index_joins)])%list ∧
    (doc_get "role" u ≠ Some (VStr "superAdmin") →
     q = doc_set creator_field (VOid uid) asked ∧
     doc_get creator_field q = Some (VOid uid) ∧
     ∀ rows v,
       (index req w).1 = Ok (Response 200 (VArr rows)) → v ∈ rows →
       ∃ row i d,
         v = VObj row ∧ doc_get "_id" row = Some (VOid i) ∧
         Meetings w !! i = Some d ∧
         eq_matches (doc_get creator_field d) (VOid uid) = true) ∧
    (doc_get "role" u = Some (VStr "superAdmin") →
     q = asked ∧
     doc_get creator_field q = doc_get creator_field (req_query req) ∧
     ∀ rows fl i d,
       (index req w).1 = Ok (Response 200 (VArr rows)) →
       compile_filter asked = Ok fl →
       Meetings w !! i = Some d →
       matches fl (with_id i d) = true →
       ∃ row, VObj row ∈ rows ∧ doc_get "_id" row = Some (VOid i)).
Proof.
  intros uid asked Hu Hok.
  exists (index_query req (Some (with_id uid u))).
  split.
  { pose proof (index_calls req w Hok) as Hcalls. cbv zeta in Hcalls.
    fold uid in Hcalls. by rewrite Hu in Hcalls. }
  split.
  - intros Hrole.
    assert (Hs : is_superAdmin (Some (with_id uid u)) = false).
    { destruct (is_superAdmin _) eqn:E; [|done].
      by apply is_superAdmin_role in E. }
    assert (Hq : index_query req (Some (with_id uid u)) =
                 doc_set creator_field (VOid uid) asked).
    { unfold index_query. by rewrite Hs. }
    split; [exact Hq|]. split; [rewrite Hq; apply doc_get_set_eq|].
    intros rows v Hresp Hv.
    destruct (index_row_visible req w rows v Hresp Hv)
      as (row & i & d & -> & Hi & Hd & _ & Hc).
    exists row, i, d. split; [done|]. split; [done|]. split; [done|].
    apply Hc. fold uid. by rewrite Hu.
  - intros Hrole. apply is_superAdmin_role with (i := uid) in Hrole.
    assert (Hq : index_query req (Some (with_id uid u)) = asked).
    { unfold index_query. by rewrite Hrole. }
    split; [exact Hq|]. split.
    { rewrite Hq. unfold asked. by rewrite doc_get_set_ne. }
    intros rows fl i d Hresp Hfl Hd Hm.
    apply (index_complete req w rows fl i d Hresp); [|done|done].
    fold uid. rewrite Hu. cbn [fmap option_fmap option_map]. by rewrite Hq.
Qed.

Lemma index_filter_by_role_witness :
  let w := several_creators in
  let by_ada := Sample.req_of 1 0 [(creator_field, VOid 2)] VNull in
  let by_root := Sample.req_of 2 0 [] VNull in
  let ada_rows := [VObj (sample_row 100); VObj (sample_row 101)] in
  let root_rows :=
    [VObj (sample_row_of 102 "Review" (VStr "Grace Hopper"));
     VObj (sample_row 100); VObj (sample_row 101);
     VObj (sample_row_of 103 "Handover" VNull)] in
  Users w !! 1%N = Some Sample.ada ∧
  Users w !! 2%N = Some Sample.root ∧
  calls_ok 1 (faults w) = true ∧
  Meetings w !! 102%N = Some (sample_stored_of 2 "Review") ∧
  (index by_ada w).1 = Ok (Response 200 (VArr ada_rows)) ∧
  (index by_root w).1 = Ok (Response 200 (VArr root_rows)) ∧
  (∃ q : doc,
     calls (index by_ada w).2 =
       (calls w ++
        [CallFindById 1; CallAggregate (Match q :: index_joins)])%list ∧
     q = [(creator_field, VOid 1); ("deleted", VBool false)] ∧
     ∀ v, v ∈ ada_rows →
       ∃ row i d,
         v = VObj row ∧ doc_get "_id" row = Some (VOid i) ∧
         Meetings w !! i = Some d ∧
         eq_matches (doc_get creator_field d) (VOid 1) = true) ∧
  (∃ q : doc,
     calls (index by_root w).2 =
       (calls w ++
        [CallFindById 2; CallAggregate (Match q :: index_joins)])%list ∧
     q = [("deleted", VBool false)] ∧
     ∃ row, VObj row ∈ root_rows ∧ doc_get "_id" row = Some (VOid 100)).
Proof.
  intros w by_ada by_root ada_rows root_rows.
  assert (Ha : Users w !! 1%N = Some Sample.ada) by reflexivity.
  assert (Hr : Users w !! 2%N = Some Sample.root) by reflexivity.
  assert (Hok : calls_ok 1 (faults w) = true) by reflexivity.
  assert (Hm : Meetings w !! 102%N = Some (sample_stored_of 2 "Review"))
    by reflexivity.
  assert (Hra : (index by_ada w).1 = Ok (Response 200 (VArr ada_rows)))
    by reflexivity.
  assert (Hrr : (index by_root w).1 = Ok (Response 200 (VArr root_rows)))
    by reflexivity.
  split; [exact Ha|]. split; [exact Hr|]. split; [exact Hok|].
  split; [exact Hm|]. split; [exact Hra|]. split; [exact Hrr|]. split.
  - destruct (index_filter_by_role by_ada w Sample.ada Ha Hok)
      as (q & Hc & Hn & _).
    assert (Hrole : doc_get "role" Sample.ada ≠ Some (VStr "superAdmin"))
      by (vm_compute; discriminate).
    destruct (Hn Hrole) as (Hq & _ & Hrows).
    exists q. split; [exact Hc|]. split; [rewrite Hq; reflexivity|].
    intros v Hv. exact (Hrows ada_rows v Hra Hv).
  - destruct (index_filter_by_role by_root w Sample.root Hr Hok)
      as (q & Hc & _ & Hs).
    destruct (Hs eq_refl) as (Hq & _ & Hall).
    exists q. split; [exact Hc|]. split; [rewrite Hq; reflexivity|].
    apply (Hall root_rows [("deleted", CEq (VBool false))] 100%N
             (sample_stored [VOid 11; VOid 12] false) Hrr);
      reflexivity.
Defined.

(** C10. When no User record has the actor's identity, [index] does not
    reject: it sends the store the aggregation that starts with the
    [$match] of the restricted filter, the caller's query with [deleted]
    false and the creator field equal to the actor's identity, and answers
    with its outcome.  Every row of a 200 comes from a stored meeting that
    is not soft-deleted and whose creator field matches the actor, so a
    dangling actor is shown no meeting of another creator. *)
Theorem index_dangling_actor (req : request) (w : world) :
  let uid := req_user_userId req in
  let q := doc_set creator_field (VOid uid)
             (doc_set "deleted" (VBool false) (req_query req)) in
  Users w !! uid = None →
  calls_ok 1 (faults w) = true →
  calls (index req w).2 =
    (calls w ++
     [CallFindById uid; CallAggregate (Match q :: index_joins)])%list ∧
  (∃ r, (index req w).1 = Ok r) ∧
  (calls_ok 2 (faults w) = true →
   (index req w).1 =
     Ok (match run_pipeline (collection w) (Match q :: index_joins)
                 (docs_of (Meetings w)) with
         | Ok rows => Response 200 (VArr (VObj <$> rows))
         | Throw _ => Response 500 (VStr "Internal Server Error")
         end)) ∧
  (∀ rows v,
     (index req w).1 = Ok (Response 200 (VArr rows)) → v ∈ rows →
     ∃ row i d,
       v = VObj row ∧ doc_get "_id" row = Some (VOid i) ∧
       Meetings w !! i = Some d ∧ is_deleted d = false ∧
       eq_matches (doc_get creator_field d) (VOid uid) = true).
Proof.
  intros uid q Hu Hok.
  split.
  { pose proof (index_calls req w Hok) as Hcalls. cbv zeta in Hcalls.
    fold uid in Hcalls. by rewrite Hu in Hcalls. }
  split.
  { by destruct (index_ok req w Hok) as (_ & _ & Hans). }
  split.
  { intros Hok2. pose proof (index_answer req w Hok2) as Hresp.
    cbv zeta in Hresp. fold uid in Hresp. by rewrite Hu in Hresp. }
  intros rows v Hresp Hv.
  destruct (index_row_visible req w rows v Hresp Hv)
    as (row & i & d & -> & Hi & Hd & Hdel & Hc).
  exists row, i, d. split; [done|]. split; [done|]. split; [done|].
  split; [done|]. apply Hc. fold uid. by rewrite Hu.
Qed.

Lemma index_dangling_actor_witness :
  let w := several_creators in
  let req := Sample.req_of 9 0 [] VNull in
  let rows := [VObj (sample_row_of 103 "Handover" VNull)] in
  Users w !! 9%N = None ∧
  calls_ok 1 (faults w) = true ∧
  Meetings w !! 102%N = Some (sample_stored_of 2 "Review") ∧
  Meetings w !! 103%N = Some (sample_stored_of 9 "Handover") ∧
  (index req w).1 = Ok (Response 200 (VArr rows)) ∧
  calls (index req w).2 =
    (calls w ++
     [CallFindById 9;
      CallAggregate
        (Match [("deleted", VBool false); (creator_field, VOid 9)]
           :: index_joins)])%list ∧
  ∀ v, v ∈ rows →
    ∃ row i d,
      v = VObj row ∧ doc_get "_id" row = Some (VOid i) ∧
      Meetings w !! i = Some d ∧ is_deleted d = false ∧
      eq_matches (doc_get creator_field d) (VOid 9) = true.
Proof.
  intros w req rows.
  assert (Hu : Users w !! 9%N = None) by reflexivity.
  assert (Hok : calls_ok 1 (faults w) = true) by reflexivity.
  split; [exact Hu|]. split; [exact Hok|].
  split; [reflexivity|]. split; [reflexivity|].
  destruct (index_dangling_actor req w Hu Hok) as (Hc & _ & Hresp & Hrows).
  assert (Hr : (index req w).1 = Ok (Response 200 (VArr rows))).
  { rewrite (Hresp eq_refl). reflexivity. }
  split; [exact Hr|]. split; [exact Hc|].
  intros v Hv. exact (Hrows rows v Hr Hv).
Defined.
